(** * env-code-agent: the pipeline driver, the stages it sequences and the
      generated RealWorld client and MCP server

    Shallow embedding of
      - [src/cli.py] ([main], the pipeline driver),
      - [realworld_mcp/client.py] ([RealWorldAPIClient]),
      - [realworld_mcp/server.py] ([call_tool]),
    together with models of the exploration engine and of the scaffold
    generator, whose sources are not part of the tree and which are therefore
    written down from the specification. *)

From Stdlib Require Import ZArith String Ascii List Lia Bool.
From stdpp Require Import base option list strings gmap pretty.

Local Open Scope Z_scope.
Local Open Scope string_scope.

(** ** Strings as Python formats them *)

Definition nl : string := String (ascii_of_nat 10) EmptyString.

(** [s * n] on a Python string. *)
Fixpoint str_repeat (s : string) (n : nat) : string :=
  match n with
  | O => ""
  | S n' => s +:+ str_repeat s n'
  end.

(** [sep.join(parts)] *)
Fixpoint str_join (sep : string) (parts : list string) : string :=
  match parts with
  | [] => ""
  | [p] => p
  | p :: rest => p +:+ sep +:+ str_join sep rest
  end.

(** [str(b)] for a [bool]. *)
Definition str_of_bool (b : bool) : string := if b then "True" else "False".

(** [str(n)] for an [int]. *)
Definition str_of_int (n : Z) : string := pretty n.

(** ** The structural model handed from stage to stage (spec, section 3) *)

Module Model.

Record EndpointSpec := {
  path_template : string;
  method : string;
  parameters : list string;
  response_shape : list (string * string);
  table_refs : list string
}.

Record TableSpec := {
  table_name : string;
  columns : list (string * string);
  relationships : list string
}.

Record Database := { tables : list TableSpec }.

Record Specification := {
  endpoints : list EndpointSpec;
  database : Database
}.

End Model.

Abbreviation Specification := Model.Specification.

(** ** The pipeline driver: [src/cli.py] *)

Module Cli.

(** The namespace [parser.parse_args()] returns. [command] is one of the
    two [choices]; argparse itself ends the process on any other command
    line, before the body modelled below is reached. *)
Record Args := {
  command : string;
  target_url : string;
  output : string;
  endpoints : option (list string);
  max_iterations : Z
}.

Record Observation := { category : string; observation : string }.

(** The dictionaries the three agents return, with the keys [main] reads. *)
Record ExplorationResult := {
  success : bool;
  iterations : Z;
  summary : string;
  observations : list Observation
}.

Record SpecResult := {
  spec_success : bool;
  specification : option Specification   (* [None]: the key is absent *)
}.

Record CodeResult := {
  code_success : bool;
  generated_files : list string
}.

(** What a run does to the outside world, in program order. A stage call
    is bracketed by its [Call..] and [Return..] events. *)
Inductive Event :=
| Print (line : string)
| NewLLMClient (api_key : string)
| NewAgent (name : string)
| CallExplore (url : string) (budget : Z) (starting : option (list string))
| ReturnExplore
| CallGenerateSpec (obs : list Observation) (url : string)
| ReturnGenerateSpec
| Makedirs (path : string)
| CallGenerateCode (output_dir : string) (spec : Specification)
| ReturnGenerateCode.

(** How a piece of the driver ends: it falls through with a value, it
    calls [sys.exit(code)], or an exception escapes. *)
Inductive Outcome (A : Type) :=
| Returns (a : A)
| SysExit (code : Z)
| Uncaught (what : string).
Arguments Returns {A} a.
Arguments SysExit {A} code.
Arguments Uncaught {A} what.

Definition Proc (A : Type) : Type := (list Event * Outcome A)%type.

Definition ret {A} (a : A) : Proc A := ([], Returns a).

Definition bind {A B} (m : Proc A) (k : A -> Proc B) : Proc B :=
  match m with
  | (t, Returns a) => let '(t', o) := k a in ((t ++ t')%list, o)
  | (t, SysExit c) => (t, SysExit c)
  | (t, Uncaught e) => (t, Uncaught e)
  end.

#[export] Instance proc_ret : MRet Proc := @ret.
#[export] Instance proc_bind : MBind Proc := fun A B k m => bind m k.

Definition emit (e : Event) : Proc unit := ([e], Returns tt).
Definition print (line : string) : Proc unit := emit (Print line).
Definition sys_exit {A} (code : Z) : Proc A := ([], SysExit code).
Definition raise {A} (what : string) : Proc A := ([], Uncaught what).

Definition when (c : bool) (body : Proc unit) : Proc unit :=
  if c then body else ret tt.

(** The collaborators of one run. A stage either returns its result
    dictionary or lets an exception escape ([None]). *)
Record World := {
  getenv : string -> option string;
  explore : string -> Z -> option (list string) -> option ExplorationResult;
  generate_spec : list Observation -> string -> option SpecResult;
  makedirs : string -> bool;
  generate_code : string -> Specification -> option CodeResult
}.

(** [os.path.join(a, b)] on a POSIX system. *)
Definition ends_with_slash (a : string) : bool :=
  match rev (list_ascii_of_string a) with
  | c :: _ => Ascii.eqb c "/"
  | [] => false
  end.

Definition os_path_join (a b : string) : string :=
  if String.prefix "/" b then b
  else if orb (String.eqb a "") (ends_with_slash a) then a +:+ b
  else a +:+ "/" +:+ b.

Definition call_explore (w : World) (url : string) (budget : Z)
    (starting : option (list string)) : Proc ExplorationResult :=
  emit (CallExplore url budget starting) ;;
  match explore w url budget starting with
  | Some r => emit ReturnExplore ;; ret r
  | None => raise "ExplorationAgent.explore"
  end.

Definition call_generate_spec (w : World) (obs : list Observation)
    (url : string) : Proc SpecResult :=
  emit (CallGenerateSpec obs url) ;;
  match generate_spec w obs url with
  | Some r => emit ReturnGenerateSpec ;; ret r
  | None => raise "SpecificationAgent.generate_spec"
  end.

Definition call_generate_code (w : World) (output_dir : string)
    (spec : Specification) : Proc CodeResult :=
  emit (CallGenerateCode output_dir spec) ;;
  match generate_code w output_dir spec with
  | Some r => emit ReturnGenerateCode ;; ret r
  | None => raise "CodeGeneratorAgent.generate_code"
  end.

Definition os_makedirs (w : World) (path : string) : Proc unit :=
  emit (Makedirs path) ;;
  if makedirs w path then ret tt else raise "OSError".

Definition banner (title : string) : Proc unit :=
  print (nl +:+ str_repeat "=" 70) ;;
  print title ;;
  print (str_repeat "=" 70 +:+ nl).

(** [for i, obs in enumerate(observations, 1): print(...)] *)
Fixpoint print_observations (i : Z) (obs : list Observation) : Proc unit :=
  match obs with
  | [] => ret tt
  | o :: rest =>
      print ("  " +:+ str_of_int i +:+ ". [" +:+ category o +:+ "] "
             +:+ observation o) ;;
      print_observations (i + 1) rest
  end.

Fixpoint print_files (files : list string) : Proc unit :=
  match files with
  | [] => ret tt
  | f :: rest => print ("   - " +:+ f) ;; print_files rest
  end.

Definition is_nonempty {A} (l : list A) : bool :=
  match l with [] => false | _ => true end.

Definition api_key_var : string := "ANTHROPIC_API_KEY".

(** [not api_key]: unset, or set to the empty string. *)
Definition key_missing (api_key : option string) : bool :=
  match api_key with
  | None => true
  | Some k => String.eqb k ""
  end.

(** Lines 87-94: the exploration result as the driver prints it. *)
Definition print_exploration_result (r : ExplorationResult) : Proc unit :=
  print ("✅ Success: " +:+ str_of_bool (success r)) ;;
  print ("🔄 Iterations: " +:+ str_of_int (iterations r)) ;;
  print (nl +:+ "📝 Summary:" +:+ nl +:+ summary r +:+ nl) ;;
  when (is_nonempty (observations r))
    (print ("📋 Observations ("
            +:+ str_of_int (Z.of_nat (length (observations r))) +:+ "):") ;;
     print_observations 1 (observations r)).

(** Lines 101-163: what only the [clone] command runs. *)
Definition clone_phases (w : World) (args : Args)
    (exploration_result : ExplorationResult) : Proc unit :=
  banner "📋 PHASE 2: SPECIFICATION GENERATION" ;;
  emit (NewAgent "SpecificationAgent") ;;
  spec_result ← call_generate_spec w (observations exploration_result)
                   (target_url args);
  when (negb (spec_success spec_result))
    (print "❌ Failed to generate specification" ;; sys_exit 1) ;;
  print "✅ Specification generated successfully!" ;;
  spec ← match specification spec_result with
          | Some s => ret s
          | None => raise "KeyError: 'specification'"
          end;
  print ("   Endpoints: "
         +:+ str_of_int (Z.of_nat (length (Model.endpoints spec)))) ;;
  print ("   Tables: "
         +:+ str_of_int (Z.of_nat (length (Model.tables (Model.database spec))))) ;;
  banner "⚡ PHASE 3: FLEET ENVIRONMENT GENERATION" ;;
  let output_dir := os_path_join (output args) "cloned-env" in
  os_makedirs w output_dir ;;
  print ("📁 Output directory: " +:+ output_dir +:+ nl) ;;
  emit (NewAgent "CodeGeneratorAgent") ;;
  code_result ← call_generate_code w output_dir spec;
  when (negb (code_success code_result))
    (print "❌ Failed to generate code" ;; sys_exit 1) ;;
  print (nl +:+ "✅ Code generation complete!") ;;
  print ("   Generated "
         +:+ str_of_int (Z.of_nat (length (generated_files code_result)))
         +:+ " files:") ;;
  print_files (generated_files code_result) ;;
  banner "🎉 CLONING COMPLETE!" ;;
  print ("📂 Fleet environment created at: " +:+ output_dir) ;;
  print (nl +:+ "📝 Next steps:") ;;
  print ("   cd " +:+ output_dir) ;;
  print "   pnpm install" ;;
  print "   pnpm run dev" ;;
  print (nl +:+ "💡 The environment follows Fleet standards:") ;;
  print "   - Uses current.sqlite (auto-copied from seed.db)" ;;
  print "   - Supports DATABASE_PATH/ENV_DB_DIR environment variables" ;;
  print "   - Includes MCP server for LLM interaction" ;;
  print "   - Runs with mprocs for multi-process development" ;;
  print "".

(** [main], from the point where [args = parser.parse_args()] has
    returned. [getenv w] is the environment as [os.getenv] reads it on
    line 57, that is after [load_dotenv()] has merged the [.env] file. *)
Definition main (w : World) (args : Args) : Proc unit :=
  let api_key := getenv w api_key_var in
  when (key_missing api_key)
    (print "❌ Error: ANTHROPIC_API_KEY environment variable not set" ;;
     sys_exit 1) ;;
  emit (NewLLMClient (default "" api_key)) ;;
  banner "🔍 PHASE 1: AUTONOMOUS API EXPLORATION" ;;
  when (match endpoints args with Some (_ :: _) => true | _ => false end)
    (print ("📍 Starting endpoints: "
            +:+ str_join ", " (default [] (endpoints args)))) ;;
  print ("🔄 Max iterations: " +:+ str_of_int (max_iterations args) +:+ nl) ;;
  emit (NewAgent "ExplorationAgent") ;;
  exploration_result ← call_explore w (target_url args)
                          (max_iterations args) (endpoints args);
  banner "📊 EXPLORATION RESULTS" ;;
  print_exploration_result exploration_result ;;
  if String.eqb (command args) "explore" then
    print ""
  else
    clone_phases w args exploration_result.

(** The exit status the operating system sees. *)
Definition exit_code {A} (o : Outcome A) : Z :=
  match o with
  | Returns _ => 0
  | SysExit c => c
  | Uncaught _ => 1
  end.

(** *** Observing a run

    [effects] keeps what a run does besides printing; [stage_trace] keeps
    the stage calls and returns only. *)

Definition is_print (e : Event) : bool :=
  match e with Print _ => true | _ => false end.

Definition effects (t : list Event) : list Event :=
  List.filter (fun e => negb (is_print e)) t.

(** A piece of the driver that only prints and then falls through. *)
Definition quiet (p : Proc unit) : Prop :=
  effects (fst p) = [] ∧ snd p = Returns tt.

(** What a run shows once its prints are dropped. *)
Definition observe {A} (p : Proc A) : list Event * Outcome A :=
  (effects (fst p), snd p).

Inductive Stage := Exploration | SpecSynthesis | CodeGeneration.

Inductive StageEvent := Called (s : Stage) | Returned (s : Stage).

Definition stage_event (e : Event) : option StageEvent :=
  match e with
  | CallExplore _ _ _ => Some (Called Exploration)
  | ReturnExplore => Some (Returned Exploration)
  | CallGenerateSpec _ _ => Some (Called SpecSynthesis)
  | ReturnGenerateSpec => Some (Returned SpecSynthesis)
  | CallGenerateCode _ _ => Some (Called CodeGeneration)
  | ReturnGenerateCode => Some (Returned CodeGeneration)
  | _ => None
  end.

Definition stage_trace (t : list Event) : list StageEvent :=
  omap stage_event t.

(** The one order in which stages may be called and return. *)
Definition pipeline_order : list StageEvent :=
  [Called Exploration; Returned Exploration;
   Called SpecSynthesis; Returned SpecSynthesis;
   Called CodeGeneration; Returned CodeGeneration].

Definition calls_stage (s : Stage) (t : list Event) : Prop :=
  Called s ∈ stage_trace t.

Definition is_network_effect (e : Event) : bool :=
  match e with
  | NewLLMClient _ | CallExplore _ _ _ | CallGenerateSpec _ _
  | CallGenerateCode _ _ => true
  | _ => false
  end.

Definition creates_directory (t : list Event) : Prop :=
  ∃ path, Makedirs path ∈ t.

(** [e1] happens before [e2] in [t]. *)
Definition precedes (e1 e2 : Event) (t : list Event) : Prop :=
  ∃ t1 t2 t3, t = (t1 ++ e1 :: t2 ++ e2 :: t3)%list.

(** The paths through [main], by what each does besides printing. *)
Section Paths.
Variables (w : World) (args : Args).

Let key := default "" (getenv w api_key_var).
Let url := target_url args.
Let dir := os_path_join (output args) "cloned-env".

Definition phase1 : list Event :=
  [NewLLMClient key; NewAgent "ExplorationAgent";
   CallExplore url (max_iterations args) (endpoints args)].

Definition phase2 (r : ExplorationResult) : list Event :=
  (phase1 ++ [ReturnExplore; NewAgent "SpecificationAgent";
              CallGenerateSpec (observations r) url])%list.

Definition phase3 (r : ExplorationResult) (spec : Specification)
  : list Event :=
  (phase2 r ++ [ReturnGenerateSpec; Makedirs dir;
                NewAgent "CodeGeneratorAgent";
                CallGenerateCode dir spec])%list.

Inductive Path : list Event → Outcome unit → Prop :=
| path_no_key :
    key_missing (getenv w api_key_var) = true →
    Path [] (SysExit 1)
| path_explore_raises what :
    key_missing (getenv w api_key_var) = false →
    explore w url (max_iterations args) (endpoints args) = None →
    Path phase1 (Uncaught what)
| path_explore_only r :
    key_missing (getenv w api_key_var) = false →
    explore w url (max_iterations args) (endpoints args) = Some r →
    command args = "explore" →
    Path (phase1 ++ [ReturnExplore]) (Returns tt)
| path_spec_raises r what :
    key_missing (getenv w api_key_var) = false →
    explore w url (max_iterations args) (endpoints args) = Some r →
    command args ≠ "explore" →
    generate_spec w (observations r) url = None →
    Path (phase2 r) (Uncaught what)
| path_spec_failed r sr :
    key_missing (getenv w api_key_var) = false →
    explore w url (max_iterations args) (endpoints args) = Some r →
    command args ≠ "explore" →
    generate_spec w (observations r) url = Some sr →
    spec_success sr = false →
    Path (phase2 r ++ [ReturnGenerateSpec]) (SysExit 1)
| path_spec_absent r sr what :
    key_missing (getenv w api_key_var) = false →
    explore w url (max_iterations args) (endpoints args) = Some r →
    command args ≠ "explore" →
    generate_spec w (observations r) url = Some sr →
    spec_success sr = true →
    specification sr = None →
    Path (phase2 r ++ [ReturnGenerateSpec]) (Uncaught what)
| path_makedirs_raises r sr spec what :
    key_missing (getenv w api_key_var) = false →
    explore w url (max_iterations args) (endpoints args) = Some r →
    command args ≠ "explore" →
    generate_spec w (observations r) url = Some sr →
    spec_success sr = true →
    specification sr = Some spec →
    makedirs w dir = false →
    Path (phase2 r ++ [ReturnGenerateSpec; Makedirs dir]) (Uncaught what)
| path_code_raises r sr spec what :
    key_missing (getenv w api_key_var) = false →
    explore w url (max_iterations args) (endpoints args) = Some r →
    command args ≠ "explore" →
    generate_spec w (observations r) url = Some sr →
    spec_success sr = true →
    specification sr = Some spec →
    makedirs w dir = true →
    generate_code w dir spec = None →
    Path (phase3 r spec) (Uncaught what)
| path_code_failed r sr spec cr :
    key_missing (getenv w api_key_var) = false →
    explore w url (max_iterations args) (endpoints args) = Some r →
    command args ≠ "explore" →
    generate_spec w (observations r) url = Some sr →
    spec_success sr = true →
    specification sr = Some spec →
    makedirs w dir = true →
    generate_code w dir spec = Some cr →
    code_success cr = false →
    Path (phase3 r spec ++ [ReturnGenerateCode]) (SysExit 1)
| path_complete r sr spec cr :
    key_missing (getenv w api_key_var) = false →
    explore w url (max_iterations args) (endpoints args) = Some r →
    command args ≠ "explore" →
    generate_spec w (observations r) url = Some sr →
    spec_success sr = true →
    specification sr = Some spec →
    makedirs w dir = true →
    generate_code w dir spec = Some cr →
    code_success cr = true →
    Path (phase3 r spec ++ [ReturnGenerateCode]) (Returns tt).

End Paths.

End Cli.

(** ** Sample runs of the driver *)

Module CliExamples.
Import Cli.

Definition empty_spec : Specification :=
  {| Model.endpoints := []; Model.database := {| Model.tables := [] |} |}.

Definition failed_exploration : ExplorationResult :=
  {| success := false; iterations := 3;
     summary := "no endpoint answered"; observations := [] |}.

Definition good_exploration : ExplorationResult :=
  {| success := true; iterations := 2; summary := "two endpoints";
     observations := [ {| category := "endpoint";
                          observation := "GET /api/articles" |} ] |}.

Definition with_key (k : string) : option string :=
  if String.eqb k api_key_var then Some "sk-test" else None.

(** Every collaborator works, except that exploration reports failure. *)
Definition world_exploration_fails : World :=
  {| getenv := with_key;
     explore := fun _ _ _ => Some failed_exploration;
     generate_spec := fun _ _ =>
       Some {| spec_success := true; specification := Some empty_spec |};
     makedirs := fun _ => true;
     generate_code := fun _ _ =>
       Some {| code_success := true; generated_files := ["client.py"] |} |}.

(** Every collaborator works. *)
Definition world_ok : World :=
  {| getenv := with_key;
     explore := fun _ _ _ => Some good_exploration;
     generate_spec := fun _ _ =>
       Some {| spec_success := true; specification := Some empty_spec |};
     makedirs := fun _ => true;
     generate_code := fun _ _ =>
       Some {| code_success := true; generated_files := ["client.py"] |} |}.

(** The credential is absent. *)
Definition world_no_key : World :=
  {| getenv := fun _ => None;
     explore := fun _ _ _ => Some good_exploration;
     generate_spec := fun _ _ =>
       Some {| spec_success := true; specification := Some empty_spec |};
     makedirs := fun _ => true;
     generate_code := fun _ _ =>
       Some {| code_success := true; generated_files := ["client.py"] |} |}.

(** Specification synthesis reports failure. *)
Definition world_spec_fails : World :=
  {| getenv := with_key;
     explore := fun _ _ _ => Some good_exploration;
     generate_spec := fun _ _ =>
       Some {| spec_success := false; specification := None |};
     makedirs := fun _ => true;
     generate_code := fun _ _ =>
       Some {| code_success := true; generated_files := ["client.py"] |} |}.

Definition explore_args : Args :=
  {| command := "explore"; target_url := "http://localhost:3001";
     output := "./output"; endpoints := None; max_iterations := 100 |}.

Definition clone_args : Args :=
  {| command := "clone"; target_url := "http://localhost:3001";
     output := "./output"; endpoints := Some ["/api/articles"];
     max_iterations := 100 |}.

End CliExamples.

(** ** Python values, as far as the generated package handles them *)

Module Py.

(** What [json] and the MCP runtime hand to the code. A float is kept as
    its IEEE-754 bit pattern; the two things the code does with one are
    left to the interpreter ([Interp] below). *)
#[warnings="-register-all"] Inductive value :=
| VNone
| VBool (b : bool)
| VInt (n : Z)
| VFloat (bits : Z)
| VStr (s : string)
| VList (items : list value)
| VDict (entries : list (string * value)).

Abbreviation dict := (list (string * value)).

(** The subclasses of [Exception] that the modelled statements raise.
    [HTTPError] stands for [httpx.HTTPError] and its subclasses. *)
Inductive exc_class :=
| Exception | HTTPError | KeyError | TypeError | AttributeError | OtherError.

(** An exception object; [exc_msg] is what [str(e)] gives. *)
Record exc := { exc_type : exc_class; exc_msg : string }.

Inductive result (A : Type) :=
| Ok (a : A)
| Raise (e : exc).
Arguments Ok {A} a.
Arguments Raise {A} e.

#[export] Instance result_ret : MRet result := @Ok.
#[export] Instance result_bind : MBind result := fun A B k m =>
  match m with
  | Ok a => k a
  | Raise e => Raise e
  end.

(** The parts of the interpreter that the source does not determine. *)
Record Interp := {
  lower : string → string;        (* [str.lower] *)
  repr : value → string;          (* [str(v)] for a [v] that is no [str] *)
  float_truthy : Z → bool;        (* [bool(x)] for a float [x] *)
  int_ge_float : Z → Z → bool;    (* [n >= x] for an int [n], a float [x] *)
  complaint : exc_class → value → string  (* wording of a built-in error *)
}.

Section Builtins.
Variable I : Interp.

Definition error {A} (c : exc_class) (about : value) : result A :=
  Raise {| exc_type := c; exc_msg := complaint I c about |}.

(** [bool(v)] *)
Definition truthy (v : value) : bool :=
  match v with
  | VNone => false
  | VBool b => b
  | VInt n => negb (Z.eqb n 0)
  | VFloat x => float_truthy I x
  | VStr s => negb (String.eqb s "")
  | VList l => match l with [] => false | _ => true end
  | VDict d => match d with [] => false | _ => true end
  end.

(** [f"{v}"] *)
Definition format (v : value) : string :=
  match v with
  | VStr s => s
  | _ => repr I v
  end.

Fixpoint dict_lookup (k : string) (d : dict) : option value :=
  match d with
  | [] => None
  | (k', v) :: rest => if String.eqb k k' then Some v else dict_lookup k rest
  end.

(** [d.get(k, dflt)] on a dict. *)
Definition dict_get (d : dict) (k : string) (dflt : value) : value :=
  match dict_lookup k d with
  | Some v => v
  | None => dflt
  end.

(** [v.get(k, dflt)]: only a dict has the method. *)
Definition get (v : value) (k : string) (dflt : value) : result value :=
  match v with
  | VDict d => Ok (dict_get d k dflt)
  | _ => error AttributeError v
  end.

(** [v[k]] for a string [k]: a missing key is a [KeyError] whose text is
    the quoted key; nothing but a dict takes a string subscript. *)
Definition getitem (v : value) (k : string) : result value :=
  match v with
  | VDict d =>
      match dict_lookup k d with
      | Some x => Ok x
      | None => Raise {| exc_type := KeyError; exc_msg := "'" +:+ k +:+ "'" |}
      end
  | _ => error TypeError v
  end.

(** The characters of a string, each a string of length one. *)
Fixpoint chars (s : string) : list value :=
  match s with
  | EmptyString => []
  | String c rest => VStr (String c EmptyString) :: chars rest
  end.

(** [for x in v]: the items a loop over [v] visits. *)
Definition iterate (v : value) : result (list value) :=
  match v with
  | VList l => Ok l
  | VStr s => Ok (chars s)
  | VDict d => Ok (map (fun kv => VStr (fst kv)) d)
  | _ => error TypeError v
  end.

(** [len(v)] *)
Definition len (v : value) : result Z :=
  match v with
  | VList l => Ok (Z.of_nat (length l))
  | VStr s => Ok (Z.of_nat (String.length s))
  | VDict d => Ok (Z.of_nat (length d))
  | _ => error TypeError v
  end.

Fixpoint all_strings (l : list value) : result (list string) :=
  match l with
  | [] => Ok []
  | VStr s :: rest => ss ← all_strings rest; Ok (s :: ss)
  | v :: _ => error TypeError v
  end.

(** [sep.join(v)]: [v] must be iterable and yield strings only. *)
Definition join (sep : string) (v : value) : result string :=
  items ← iterate v;
  parts ← all_strings items;
  Ok (str_join sep parts).

(** [n >= v] for an int [n]. *)
Definition int_ge (n : Z) (v : value) : result bool :=
  match v with
  | VInt m => Ok (Z.leb m n)
  | VBool b => Ok (Z.leb (if b then 1 else 0) n)
  | VFloat x => Ok (int_ge_float I n x)
  | _ => error TypeError v
  end.

(** [v.lower()]: a method of [str] only. *)
Definition lower_of (v : value) : result string :=
  match v with
  | VStr s => Ok (lower I s)
  | _ => error AttributeError v
  end.

(** [needle in hay] on strings. *)
Fixpoint contains (needle hay : string) : bool :=
  String.prefix needle hay
  || match hay with
     | EmptyString => false
     | String _ rest => contains needle rest
     end.

End Builtins.

End Py.

(** ** The generated client: [realworld_mcp/client.py] *)

Module Client.
Import Py.

(** What one call into [httpx] does. A response carries its status code
    and what [response.json()] gives, a parsed body or an exception. *)
Inductive http_outcome :=
| Responds (status_code : Z) (json : result value)
| TransportFails (msg : string)   (* a subclass of [httpx.HTTPError] *)
| OtherwiseFails (msg : string).  (* any other [Exception] *)

(** The world outside the package: the process environment, the HTTP
    peer reached through [httpx.AsyncClient(timeout).request(method, url,
    **kwargs)], and the text of the error [raise_for_status] raises. *)
Record Network := {
  os_getenv : string → option string;
  request : Z → string → string → dict → http_outcome;
  status_error : Z → string → string
}.

(** [response.raise_for_status()] passes the 2xx codes and raises
    [httpx.HTTPStatusError] on every other one. *)
Definition is_success (status_code : Z) : bool :=
  Z.leb 200 status_code && Z.leb status_code 299.

Record RealWorldAPIClient := {
  app_env : string;
  base_url : string;
  api_url : string
}.

Section Methods.
Variables (I : Interp) (net : Network).

Definition getenv_or (name dflt : string) : string :=
  match os_getenv net name with
  | Some v => v
  | None => dflt
  end.

(** [__init__] *)
Definition init : RealWorldAPIClient :=
  let app_env := getenv_or "APP_ENV" "local" in
  let base_url :=
    if String.eqb app_env "local"
    then getenv_or "API_BASE_URL" "http://localhost:3002"
    else getenv_or "API_BASE_URL" "https://your-production-api.com" in
  {| app_env := app_env; base_url := base_url;
     api_url := base_url +:+ "/api" |}.

Variable self : RealWorldAPIClient.

(** The three statements under [try] in [_request] and [health_check]. *)
Definition send (timeout : Z) (method url : string) (kwargs : dict)
  : result value :=
  match request net timeout method url kwargs with
  | Responds status_code json =>
      if is_success status_code then json
      else Raise {| exc_type := HTTPError;
                    exc_msg := status_error net status_code url |}
  | TransportFails msg => Raise {| exc_type := HTTPError; exc_msg := msg |}
  | OtherwiseFails msg => Raise {| exc_type := OtherError; exc_msg := msg |}
  end.

Definition is_http_error (e : exc) : bool :=
  match exc_type e with HTTPError => true | _ => false end.

Definition _request (method path : string) (kwargs : dict) : result value :=
  let url := api_url self +:+ path in
  match send 30 method url kwargs with
  | Ok body => Ok body
  | Raise e =>
      if is_http_error e
      then Raise {| exc_type := Exception;
                    exc_msg := "API request failed: " +:+ exc_msg e |}
      else Raise {| exc_type := Exception;
                    exc_msg := "Request error: " +:+ exc_msg e |}
  end.

Definition optional (name : string) (v : value) : dict :=
  if truthy I v then [(name, v)] else [].

Definition get_articles (tag author favorited limit offset : value)
  : result value :=
  let params :=
    ([("limit", limit); ("offset", offset)]
     ++ optional "tag" tag ++ optional "author" author
     ++ optional "favorited" favorited)%list in
  _request "GET" "/articles" [("params", VDict params)].

Definition get_article (slug : value) : result value :=
  _request "GET" ("/articles/" +:+ format I slug) [].

Definition get_article_comments (slug : value) : result value :=
  _request "GET" ("/articles/" +:+ format I slug +:+ "/comments") [].

Definition get_profile (username : value) : result value :=
  _request "GET" ("/profiles/" +:+ format I username) [].

Definition get_tags : result value := _request "GET" "/tags" [].

Definition health_check : result value :=
  let url := base_url self +:+ "/health" in
  match send 10 "GET" url [] with
  | Ok body => Ok body
  | Raise e => Raise {| exc_type := Exception;
                        exc_msg := "Health check failed: " +:+ exc_msg e |}
  end.

(** [query_lower in article.get(field, "").lower()] *)
Definition field_has (query_lower : string) (article : value)
    (field : string) : result bool :=
  v ← get I article field (VStr "");
  s ← lower_of I v;
  Ok (contains query_lower s).

(** The condition of the [if] in the loop; [or] stops at the first
    operand that holds. *)
Definition article_matches (query_lower : string) (article : value)
  : result bool :=
  field_has query_lower article "title" ≫= λ in_title : bool,
  if in_title then Ok true else
  field_has query_lower article "description" ≫= λ in_description : bool,
  if in_description then Ok true else
  field_has query_lower article "body".

(** The [for] loop of [search_articles]; [matching] is
    [matching_articles] so far. *)
Fixpoint search_loop (query_lower : string) (limit : value)
    (articles matching : list value) : result (list value) :=
  match articles with
  | [] => Ok matching
  | article :: rest =>
      article_matches query_lower article ≫= λ hit : bool,
      if hit then
        let matching' := (matching ++ [article])%list in
        int_ge I (Z.of_nat (length matching')) limit ≫= λ full : bool,
        if full then Ok matching'
        else search_loop query_lower limit rest matching'
      else search_loop query_lower limit rest matching
  end.

Definition search_result (matching : list value) : value :=
  VDict [("articles", VList matching);
         ("articlesCount", VInt (Z.of_nat (length matching)))].

Definition search_articles (query limit : value) : result value :=
  articles ← get_articles VNone VNone VNone (VInt 50) (VInt 0);
  page ← get I articles "articles" VNone;
  if negb (truthy I page) then Ok (search_result [])
  else
    query_lower ← lower_of I query;
    page' ← getitem I articles "articles";
    items ← iterate I page';
    matching ← search_loop query_lower limit items [];
    Ok (search_result matching).

(** *** Vocabulary for statements about [search_articles] *)

Definition search_fields : list string := ["title"; "description"; "body"].

(** The request [search_articles] makes: [get_articles(limit=50)]. *)
Definition first_page_kwargs : dict :=
  [("params", VDict [("limit", VInt 50); ("offset", VInt 0)])].

(** The articles of a fetched page, in the order the loop visits them. *)
Definition page_items (response : value) : list value :=
  match getitem I response "articles" with
  | Ok page => match iterate I page with
               | Ok items => items
               | Raise _ => []
               end
  | Raise _ => []
  end.

Definition is_substring (needle hay : string) : Prop :=
  ∃ pre post, hay = pre +:+ needle +:+ post.

(** The lowered query occurs in the lowered text of one of the three
    fields, an absent field counting as the empty text. *)
Definition mentions (query : string) (article : value) : Prop :=
  ∃ field text,
    field ∈ search_fields
    ∧ get I article field (VStr "") = Ok (VStr text)
    ∧ is_substring (lower I query) (lower I text).

(** An article as the RealWorld API serves it: an object whose title,
    description and body, where present, are strings. *)
Definition well_formed_article (article : value) : Prop :=
  ∃ d, article = VDict d
       ∧ ∀ field, field ∈ search_fields →
                  ∃ text, dict_get d field (VStr "") = VStr text.

End Methods.

End Client.

(** ** The generated MCP server: [realworld_mcp/server.py] *)

Module Server.
Import Py.

(** One item of a tool result, [{"type": ..., "text": ...}]. *)
Record Content := { type : string; text : string }.

Definition text_result (t : string) : list Content :=
  [{| type := "text"; text := t |}].

(** A computation that, when it returns, returns exactly one text item. *)
Definition one_text (m : result (list Content)) : Prop :=
  ∀ r, m = Ok r → ∃ t, r = text_result t.

(** The tools [list_tools] declares, by name, with their required
    arguments. *)
Definition list_tools : list (string * list string) :=
  [("get_articles", []);
   ("get_article", ["slug"]);
   ("get_article_comments", ["slug"]);
   ("get_profile", ["username"]);
   ("get_tags", []);
   ("search_articles", ["query"]);
   ("health_check", [])].

Definition tool_names : list string := map fst list_tools.

Section Handlers.
Variables (I : Interp) (net : Client.Network).

(** The module-level [client = RealWorldAPIClient()]. *)
Definition client : Client.RealWorldAPIClient := Client.init net.

(** [f"Tags: {', '.join(article.get('tagList', []))}"] without the label *)
Definition tags_of (article : value) : result string :=
  tag_list ← get I article "tagList" (VList []);
  join I ", " tag_list.

(** [article['author']['username']] *)
Definition author_name (v : value) : result value :=
  author ← getitem I v "author";
  getitem I author "username".

(** The loop body of the [get_articles] branch. *)
Definition render_article (acc : string) (article : value) : result string :=
  title ← getitem I article "title";
  username ← author_name article;
  let acc := acc +:+ "**" +:+ format I title +:+ "** (by "
                 +:+ format I username +:+ ")" +:+ nl in
  slug ← getitem I article "slug";
  let acc := acc +:+ "Slug: " +:+ format I slug +:+ nl in
  description ← getitem I article "description";
  let acc := acc +:+ "Description: " +:+ format I description +:+ nl in
  tags ← tags_of article;
  let acc := acc +:+ "Tags: " +:+ tags +:+ nl in
  favorites ← getitem I article "favoritesCount";
  let acc := acc +:+ "Favorites: " +:+ format I favorites +:+ nl in
  created ← getitem I article "createdAt";
  Ok (acc +:+ "Created: " +:+ format I created +:+ nl +:+ nl).

(** The loop body of the [search_articles] branch. *)
Definition render_hit (acc : string) (article : value) : result string :=
  title ← getitem I article "title";
  username ← author_name article;
  let acc := acc +:+ "**" +:+ format I title +:+ "** (by "
                 +:+ format I username +:+ ")" +:+ nl in
  slug ← getitem I article "slug";
  let acc := acc +:+ "Slug: " +:+ format I slug +:+ nl in
  description ← getitem I article "description";
  let acc := acc +:+ "Description: " +:+ format I description +:+ nl in
  tags ← tags_of article;
  Ok (acc +:+ "Tags: " +:+ tags +:+ nl +:+ nl).

(** The loop body of the [get_article_comments] branch. *)
Definition render_comment (acc : string) (comment : value) : result string :=
  username ← author_name comment;
  created ← getitem I comment "createdAt";
  let acc := acc +:+ "**" +:+ format I username +:+ "** ("
                 +:+ format I created +:+ "):" +:+ nl in
  body ← getitem I comment "body";
  Ok (acc +:+ format I body +:+ nl +:+ nl).

(** [for x in items: acc += ...] *)
Fixpoint for_each (body : string → value → result string)
    (items : list value) (acc : string) : result string :=
  match items with
  | [] => Ok acc
  | x :: rest => acc' ← body acc x; for_each body rest acc'
  end.

Definition tool_get_articles (arguments : dict) : result (list Content) :=
  result ← Client.get_articles I net client
              (dict_get arguments "tag" VNone)
              (dict_get arguments "author" VNone)
              (dict_get arguments "favorited" VNone)
              (dict_get arguments "limit" (VInt 20))
              (dict_get arguments "offset" (VInt 0));
  count ← get I result "articlesCount" (VInt 0);
  let articles_text := "Found " +:+ format I count +:+ " articles."
                       +:+ nl +:+ nl in
  articles ← get I result "articles" (VList []);
  items ← iterate I articles;
  articles_text ← for_each render_article items articles_text;
  Ok (text_result articles_text).

Definition tool_get_article (arguments : dict) : result (list Content) :=
  slug ← getitem I (VDict arguments) "slug";
  result ← Client.get_article I net client slug;
  article ← get I result "article" (VDict []);
  title ← getitem I article "title";
  let article_text := "**" +:+ format I title +:+ "**" +:+ nl in
  username ← author_name article;
  let article_text := article_text +:+ "By: " +:+ format I username +:+ nl in
  slug' ← getitem I article "slug";
  let article_text := article_text +:+ "Slug: " +:+ format I slug' +:+ nl in
  description ← getitem I article "description";
  let article_text := article_text +:+ "Description: "
                      +:+ format I description +:+ nl +:+ nl in
  body ← getitem I article "body";
  let article_text := article_text +:+ "**Content:**" +:+ nl
                      +:+ format I body +:+ nl +:+ nl in
  tags ← tags_of article;
  let article_text := article_text +:+ "Tags: " +:+ tags +:+ nl in
  favorites ← getitem I article "favoritesCount";
  let article_text := article_text +:+ "Favorites: "
                      +:+ format I favorites +:+ nl in
  created ← getitem I article "createdAt";
  let article_text := article_text +:+ "Created: "
                      +:+ format I created +:+ nl in
  updated ← getitem I article "updatedAt";
  let article_text := article_text +:+ "Updated: "
                      +:+ format I updated +:+ nl in
  Ok (text_result article_text).

Definition tool_get_article_comments (arguments : dict)
  : result (list Content) :=
  slug ← getitem I (VDict arguments) "slug";
  result ← Client.get_article_comments I net client slug;
  comments ← get I result "comments" (VList []);
  if negb (truthy I comments) then
    Ok (text_result ("No comments found for article '" +:+ format I slug
                     +:+ "'"))
  else
    n ← len I comments;
    let comments_text := "Comments for article '" +:+ format I slug +:+ "' ("
                         +:+ str_of_int n +:+ " total):" +:+ nl +:+ nl in
    items ← iterate I comments;
    comments_text ← for_each render_comment items comments_text;
    Ok (text_result comments_text).

Definition tool_get_profile (arguments : dict) : result (list Content) :=
  username ← getitem I (VDict arguments) "username";
  result ← Client.get_profile I net client username;
  profile ← get I result "profile" (VDict []);
  name ← getitem I profile "username";
  let profile_text := "**Profile: " +:+ format I name +:+ "**" +:+ nl in
  bio ← get I profile "bio" VNone;
  profile_text ←
    (if truthy I bio then
       bio' ← getitem I profile "bio";
       Ok (profile_text +:+ "Bio: " +:+ format I bio' +:+ nl)
     else Ok profile_text);
  image ← get I profile "image" VNone;
  profile_text ←
    (if truthy I image then
       image' ← getitem I profile "image";
       Ok (profile_text +:+ "Image: " +:+ format I image' +:+ nl)
     else Ok profile_text);
  following ← get I profile "following" VNone;
  Ok (text_result (profile_text +:+ "Following: "
                   +:+ (if truthy I following then "Yes" else "No") +:+ nl)).

Definition tool_get_tags : result (list Content) :=
  result ← Client.get_tags net client;
  tags ← get I result "tags" (VList []);
  if negb (truthy I tags) then Ok (text_result "No tags found")
  else
    n ← len I tags;
    let tags_text := "Available tags (" +:+ str_of_int n +:+ " total):"
                     +:+ nl in
    joined ← join I ", " tags;
    Ok (text_result (tags_text +:+ joined)).

Definition tool_search_articles (arguments : dict) : result (list Content) :=
  query ← getitem I (VDict arguments) "query";
  let limit := dict_get arguments "limit" (VInt 10) in
  result ← Client.search_articles I net client query limit;
  articles ← get I result "articles" (VList []);
  if negb (truthy I articles) then
    Ok (text_result ("No articles found matching '" +:+ format I query
                     +:+ "'"))
  else
    n ← len I articles;
    let search_text := "Search results for '" +:+ format I query +:+ "' ("
                       +:+ str_of_int n +:+ " found):" +:+ nl +:+ nl in
    items ← iterate I articles;
    search_text ← for_each render_hit items search_text;
    Ok (text_result search_text).

Definition tool_health_check : result (list Content) :=
  result ← Client.health_check net client;
  let health_text := "**API Health Status**" +:+ nl in
  status ← get I result "status" (VStr "unknown");
  let health_text := health_text +:+ "Status: " +:+ format I status +:+ nl in
  message ← get I result "message" (VStr "No message");
  let health_text := health_text +:+ "Message: " +:+ format I message
                     +:+ nl in
  timestamp ← get I result "timestamp" (VStr "Unknown");
  let health_text := health_text +:+ "Timestamp: " +:+ format I timestamp
                     +:+ nl in
  let health_text := health_text +:+ "Base URL: "
                     +:+ Client.base_url client +:+ nl in
  Ok (text_result health_text).

(** The body of the [try] in [call_tool]. *)
Definition dispatch (name : string) (arguments : dict)
  : result (list Content) :=
  if String.eqb name "get_articles" then tool_get_articles arguments
  else if String.eqb name "get_article" then tool_get_article arguments
  else if String.eqb name "get_article_comments"
       then tool_get_article_comments arguments
  else if String.eqb name "get_profile" then tool_get_profile arguments
  else if String.eqb name "get_tags" then tool_get_tags
  else if String.eqb name "search_articles"
       then tool_search_articles arguments
  else if String.eqb name "health_check" then tool_health_check
  else Ok (text_result ("Unknown tool: " +:+ name)).

(** [call_tool]: the [try] above under [except Exception as e]. *)
Definition call_tool (name : string) (arguments : dict)
  : result (list Content) :=
  match dispatch name arguments with
  | Ok contents => Ok contents
  | Raise e =>
      let error_msg := "Error executing " +:+ name +:+ ": " +:+ exc_msg e in
      Ok (text_result error_msg)
  end.

End Handlers.

End Server.

(** ** The exploration engine (spec, sections 3 and 4.1)

    [agents/exploration_agent.py] is not part of the source tree; the
    engine below follows the specification's description of it. *)

Module Exploration.

(** Modelled from the spec: the categories of an Observation (the agent
    module that declares them is missing). *)
Inductive Category :=
| endpoint | schema | error | auth | pagination | relationship | other.

(** Modelled from the spec: an Observation, "{category, text, source
    path, iteration index}" (the agent module is missing). *)
Record Observation := {
  category : Category;
  text : string;
  source_path : string;
  iteration_index : nat
}.

(** Modelled from the spec: the ExplorationResult the missing
    [ExplorationAgent.explore] returns, "{success: bool, iterations: int,
    summary: text, observations}". *)
Record ExplorationResult := {
  success : bool;
  iterations : Z;
  summary : string;
  observations : list Observation
}.

(** Modelled from the spec: the states of the engine's state machine,
    "Idle, Probing, Deciding, Converged, ExhaustedBudget". *)
Inductive Phase := Idle | Probing | Deciding | Converged | ExhaustedBudget.

(** Modelled from the spec: the collaborators of the missing engine. A
    probe of the target API answers or fails in transport; the gateway
    may be asked which path to probe next and whether coverage suffices,
    and each such call may fail. *)
Record Collaborators := {
  Response : Type;
  discovered_root : string;
  probe : nat → string → option Response;
  classify : Response → list (Category * string);
  extract_paths : Response → list string;
  normalize : string → string;
  gateway_select : nat → list string → list Observation → option string;
  gateway_converged : nat → list Observation → nat → option bool;
  summarize : list Observation → string
}.

(** Modelled from the spec: the two tunable constants of the missing
    engine, the consecutive-failure threshold and the number of gateway
    retries. *)
Record Config := {
  failure_threshold : nat;
  gateway_retries : nat
}.

(** Modelled from the spec: the engine's working state. The frontier is
    kept in discovery order. *)
Record State := {
  phase : Phase;
  frontier : list string;
  dequeued : gset string;
  failures : gmap string nat;
  unreachable : gset string;
  log : list Observation;
  used : nat
}.

Section Engine.
Variables (C : Collaborators) (cfg : Config).

(** Modelled from the spec: how deep a resource path is nested, for the
    missing engine's "top-level resources before nested" ordering: its
    number of segments. *)
Fixpoint depth (path : string) : nat :=
  match path with
  | EmptyString => O
  | String c rest => (if Ascii.eqb c "/" then 1 else 0) + depth rest
  end.

Definition min_depth (paths : list string) : nat :=
  foldr (fun p acc => Nat.min (depth p) acc)
        (match paths with p :: _ => depth p | [] => O end) paths.

(** Modelled from the spec: the deterministic ordering policy of the
    missing engine, shallowest path first and ties by discovery order. *)
Definition select_deterministic (paths : list string) : option string :=
  List.find (fun p => Nat.eqb (depth p) (min_depth paths)) paths.

(** Modelled from the spec: a gateway call of the missing engine,
    "retried a small bounded number of times on transport failure". *)
Fixpoint retry {A} (attempts : nat) (call : nat → option A) : option A :=
  match attempts with
  | O => None
  | S n => match call n with
           | Some a => Some a
           | None => retry n call
           end
  end.

Definition in_frontier (p : string) (paths : list string) : bool :=
  existsb (String.eqb p) paths.

(** Modelled from the spec: probe selection in the missing engine. The
    gateway's choice is taken when it names a frontier path; after the
    retries are used up the deterministic policy decides. *)
Definition select_next (st : State) : option string :=
  match retry (gateway_retries cfg)
          (fun n => gateway_select C n (frontier st) (log st)) with
  | Some p => if in_frontier p (frontier st) then Some p
              else select_deterministic (frontier st)
  | None => select_deterministic (frontier st)
  end.

Definition remove_path (p : string) (paths : list string) : list string :=
  List.filter (fun q => negb (String.eqb p q)) paths.

Definition observe (i : nat) (path : string) (found : list (Category * string))
  : list Observation :=
  map (fun ct => {| category := fst ct; text := snd ct;
                    source_path := path; iteration_index := i |}) found.

(** Modelled from the spec: the paths the missing engine adds to the
    frontier, "deduplicated by normalized path template" and "if not
    already dequeued". *)
Fixpoint fresh_paths (st : State) (known : list string)
    (candidates : list string) : list string :=
  match candidates with
  | [] => []
  | p :: rest =>
      let t := normalize C p in
      if bool_decide (t ∈ dequeued st) || bool_decide (t ∈ unreachable st)
         || in_frontier t known
      then fresh_paths st known rest
      else t :: fresh_paths st (t :: known) rest
  end.

(** Modelled from the spec: one iteration of the missing engine on the
    selected path: probe, classify, extend the frontier; a transport
    failure becomes an [error] observation and counts towards the
    unreachable threshold. *)
Definition probe_step (path : string) (st : State) : State :=
  let i := S (used st) in
  let rest := remove_path path (frontier st) in
  match probe C i path with
  | Some r =>
      let st' := {| phase := Deciding; frontier := rest;
                    dequeued := {[normalize C path]} ∪ dequeued st;
                    failures := delete path (failures st);
                    unreachable := unreachable st;
                    log := (log st ++ observe i path (classify C r))%list;
                    used := i |} in
      {| phase := Deciding;
         frontier := (rest ++ fresh_paths st' rest (extract_paths C r))%list;
         dequeued := dequeued st'; failures := failures st';
         unreachable := unreachable st'; log := log st'; used := i |}
  | None =>
      let n := S (default O (failures st !! path)) in
      let gone := Nat.leb (failure_threshold cfg) n in
      {| phase := Deciding;
         frontier := if gone then rest else (rest ++ [path])%list;
         dequeued := dequeued st;
         failures := <[path := n]> (failures st);
         unreachable := if gone then {[normalize C path]} ∪ unreachable st
                        else unreachable st;
         log := (log st ++ observe i path
                             [(error, "transport failure")])%list;
         used := i |}
  end.

(** Modelled from the spec: the stopping policy of the missing engine,
    asked with the log and the remaining budget; a gateway that keeps
    failing does not stop the exploration. *)
Definition sufficient_coverage (st : State) (remaining : nat) : bool :=
  default false
    (retry (gateway_retries cfg)
       (fun n => gateway_converged C n (log st) remaining)).

Definition set_phase (p : Phase) (st : State) : State :=
  {| phase := p; frontier := frontier st; dequeued := dequeued st;
     failures := failures st; unreachable := unreachable st;
     log := log st; used := used st |}.

(** Modelled from the spec: the loop of the missing engine, "Probing
    and Deciding in turn until Converged or ExhaustedBudget", with
    [budget] iterations left. An empty frontier leaves nothing to probe
    and ends the exploration as converged. *)
Fixpoint run (budget : nat) (st : State) : State :=
  match budget with
  | O => set_phase ExhaustedBudget st
  | S remaining =>
      match select_next st with
      | None => set_phase Converged st
      | Some path =>
          let st' := probe_step path (set_phase Probing st) in
          if sufficient_coverage st' remaining
          then set_phase Converged st'
          else run remaining st'
      end
  end.

(** Modelled from the spec: the frontier is seeded "with
    starting_endpoints if given, else a discovered root path". *)
Definition initial (starting_endpoints : option (list string)) : State :=
  {| phase := Idle;
     frontier := match starting_endpoints with
                 | Some paths => paths
                 | None => [discovered_root C]
                 end;
     dequeued := ∅; failures := ∅; unreachable := ∅; log := []; used := O |}.

Definition is_endpoint (o : Observation) : bool :=
  match category o with endpoint => true | _ => false end.

(** Modelled from the spec: the result of the missing engine; "success
    is false only if zero endpoint-category observations were ever
    recorded". *)
Definition result_of (st : State) : ExplorationResult :=
  {| success := existsb is_endpoint (log st);
     iterations := Z.of_nat (used st);
     summary := summarize C (log st);
     observations := log st |}.

(** Modelled from the spec: [explore(starting_endpoints?,
    max_iterations: int)], the operation of the missing
    [agents/exploration_agent.py]. Each iteration is "bounded by
    max_iterations": the loop has [max_iterations] turns to use, and none
    when that integer is zero or negative. *)
Definition explore (starting_endpoints : option (list string))
    (max_iterations : Z) : ExplorationResult :=
  result_of (run (Z.to_nat max_iterations) (initial starting_endpoints)).

End Engine.

End Exploration.

(** ** The scaffold generator (spec, sections 3, 4.3 and 7)

    [agents/code_generator_agent.py] is not part of the source tree; the
    generator below follows the specification's description of it. The
    driver constructs it with the gateway client and the output directory
    ([CodeGeneratorAgent(llm, output_dir)]). *)

Module Scaffold.
Import Model.

(** Modelled from the spec: what the missing generator emits, "for each
    EndpointSpec a client-side request method and a corresponding
    tool-interface definition; for each TableSpec a schema declaration
    and seed-data scaffold". *)
Inductive Artifact :=
| ClientMethod (http_method path : string) (params : list string)
| ToolDefinition (name : string) (input_schema : list string)
    (response : list (string * string))
| SchemaDeclaration (table : string) (cols : list (string * string))
    (references : list string)
| SeedScaffold (table : string) (cols : list string).

(** Modelled from the spec: the ScaffoldResult the missing
    [CodeGeneratorAgent.generate_code] returns. *)
Record ScaffoldResult := {
  success : bool;
  generated_files : list string
}.

(** Modelled from the spec: the output layout, "the generated client,
    the generated tool-interface server, and generated schema/seed
    scaffolding". The client and the server are one file each; every
    table has a schema file and a seed file named after it. The names are
    not given and stay parameters. *)
Record Layout := {
  output_dir : string;
  client_file : string;
  server_file : string;
  schema_file : string → string;
  seed_file : string → string
}.

(** Modelled from the spec: the two collaborators of the missing
    generator that can fail. The gateway turns the artifacts of a file
    into its text, or fails ("GatewayError"); a write to the output
    directory goes through or fails ("GenerationIOError"). Both are asked
    by the number of the call, so the same request may fare differently
    the next time it is made. *)
Record Environment := {
  complete : nat → string → list Artifact → option string;
  write_ok : nat → string → bool;
  gateway_retries : nat
}.

(** Modelled from the spec: the output directory and the calls made so
    far, as the missing generator leaves them. *)
Record State := {
  files : gmap string string;
  gateway_calls : nat;
  writes : nat
}.

Section Generator.
Variables (E : Environment) (L : Layout).

Definition client_method (e : EndpointSpec) : Artifact :=
  ClientMethod (method e) (path_template e) (parameters e).

Definition tool_definition (e : EndpointSpec) : Artifact :=
  ToolDefinition (method e +:+ " " +:+ path_template e) (parameters e)
    (response_shape e).

Definition schema_declaration (t : TableSpec) : Artifact :=
  SchemaDeclaration (table_name t) (columns t) (relationships t).

Definition seed_scaffold (t : TableSpec) : Artifact :=
  SeedScaffold (table_name t) (map fst (columns t)).

Definition in_output (name : string) : string :=
  Cli.os_path_join (output_dir L) name.

(** The two files of one table. *)
Definition table_files (t : TableSpec) : list (string * list Artifact) :=
  [(in_output (schema_file L (table_name t)), [schema_declaration t]);
   (in_output (seed_file L (table_name t)), [seed_scaffold t])].

(** Modelled from the spec: the file set the missing generator compiles
    a Specification into, paths with what each file holds, in writing
    order. *)
Definition plan (spec : Specification) : list (string * list Artifact) :=
  ([(in_output (client_file L), map client_method (endpoints spec));
    (in_output (server_file L), map tool_definition (endpoints spec))]
   ++ concat (map table_files (tables (database spec))))%list.

Definition planned_paths (spec : Specification) : list string :=
  map fst (plan spec).

(** Modelled from the spec: a gateway call of the missing generator,
    with its "bounded retry"; each attempt is a call of its own. *)
Fixpoint render (attempts : nat) (path : string) (content : list Artifact)
    (st : State) : option string * State :=
  match attempts with
  | O => (None, st)
  | S n =>
      let st' := {| files := files st;
                    gateway_calls := S (gateway_calls st);
                    writes := writes st |} in
      match complete E (gateway_calls st) path content with
      | Some text => (Some text, st')
      | None => render n path content st'
      end
  end.

(** Modelled from the spec: one file write of the missing generator. A
    write that goes through replaces what the path held; one that fails
    leaves the directory as it was. *)
Definition write (path text : string) (st : State) : bool * State :=
  if write_ok E (writes st) path
  then (true, {| files := <[path := text]> (files st);
                 gateway_calls := gateway_calls st;
                 writes := S (writes st) |})
  else (false, {| files := files st;
                  gateway_calls := gateway_calls st;
                  writes := S (writes st) |}).

Definition failed (done : ScaffoldResult) : ScaffoldResult :=
  {| success := false; generated_files := generated_files done |}.

Definition wrote (path : string) (done : ScaffoldResult) : ScaffoldResult :=
  {| success := success done;
     generated_files := (generated_files done ++ [path])%list |}.

(** Modelled from the spec: what the missing generator does for one
    file. A gateway that keeps failing or a failed write is "fatal for
    that file only": the result turns unsuccessful and the file is not
    listed. *)
Definition emit_file (path : string) (content : list Artifact)
    (done : ScaffoldResult) (st : State) : ScaffoldResult * State :=
  match render (S (gateway_retries E)) path content st with
  | (Some text, st1) =>
      match write path text st1 with
      | (true, st2) => (wrote path done, st2)
      | (false, st2) => (failed done, st2)
      end
  | (None, st1) => (failed done, st1)
  end.

(** Modelled from the spec: the loop of the missing generator over the
    planned files; "already-written files" stay and the remaining ones
    are still attempted. *)
Fixpoint emit_all (todo : list (string * list Artifact))
    (done : ScaffoldResult) (st : State) : ScaffoldResult * State :=
  match todo with
  | [] => (done, st)
  | (path, content) :: rest =>
      let '(done', st') := emit_file path content done st in
      emit_all rest done' st'
  end.

(** Modelled from the spec: [generate_code(specification)], the
    operation of the missing [agents/code_generator_agent.py]; "a
    Specification with zero endpoints" gives [success=false] and no
    files. *)
Definition generate_code (spec : Specification) (st : State)
  : ScaffoldResult * State :=
  match endpoints spec with
  | [] => ({| success := false; generated_files := [] |}, st)
  | _ :: _ =>
      emit_all (plan spec) {| success := true; generated_files := [] |} st
  end.

End Generator.

End Scaffold.

(** ** Sample inputs for the generated package and the two models *)

Module Samples.
Import Py.

Definition ascii_lower (c : ascii) : ascii :=
  let n := nat_of_ascii c in
  if Nat.leb 65 n && Nat.leb n 90 then ascii_of_nat (n + 32) else c.

Fixpoint str_lower (s : string) : string :=
  match s with
  | EmptyString => EmptyString
  | String c rest => String (ascii_lower c) (str_lower rest)
  end.

(** An interpreter restricted to ASCII text. *)
Definition interp : Interp :=
  {| lower := str_lower;
     repr := fun _ => "<object>";
     float_truthy := fun bits => negb (Z.eqb bits 0);
     int_ge_float := fun _ _ => false;
     complaint := fun _ _ => "unsupported operand" |}.

Definition article (title body : string) : value :=
  VDict [("slug", VStr title); ("title", VStr title);
         ("description", VStr ""); ("body", VStr body)].

Definition page : value :=
  VDict [("articles",
          VList [article "Proofs in Rocq" "tactics";
                 article "Cooking" "salt";
                 article "Logic" "the ROCQ prover"]);
         ("articlesCount", VInt 3)].

(** A page whose first article does not mention the prover. *)
Definition late_page : value :=
  VDict [("articles",
          VList [article "Cooking" "salt";
                 article "Logic" "the ROCQ prover"]);
         ("articlesCount", VInt 2)].

(** A peer that serves one page of articles and nothing else. *)
Definition net : Client.Network :=
  {| Client.os_getenv := fun _ => None;
     Client.request := fun _ method url _ =>
       if String.eqb url "http://localhost:3002/api/articles"
       then Client.Responds 200 (Ok page)
       else Client.Responds 404 (Ok VNone);
     Client.status_error := fun _ _ => "Client error '404 Not Found'" |}.

Definition client : Client.RealWorldAPIClient := Client.init net.

Definition layout : Scaffold.Layout :=
  {| Scaffold.output_dir := "./output/cloned-env";
     Scaffold.client_file := "client.py";
     Scaffold.server_file := "server.py";
     Scaffold.schema_file := fun table => table +:+ ".schema.sql";
     Scaffold.seed_file := fun table => table +:+ ".seed.sql" |}.

Definition articles_spec : Specification :=
  {| Model.endpoints :=
       [{| Model.path_template := "/articles"; Model.method := "GET";
           Model.parameters := ["limit"; "offset"];
           Model.response_shape := [("title", "string")];
           Model.table_refs := ["articles"] |}];
     Model.database :=
       {| Model.tables :=
            [{| Model.table_name := "articles";
                Model.columns := [("title", "string")];
                Model.relationships := [] |}] |} |}.

Definition empty_dir : Scaffold.State :=
  {| Scaffold.files := ∅; Scaffold.gateway_calls := O;
     Scaffold.writes := O |}.

(** A gateway that answers and a directory that takes every write. *)
Definition reliable : Scaffold.Environment :=
  {| Scaffold.complete := fun _ path _ => Some ("# " +:+ path);
     Scaffold.write_ok := fun _ _ => true;
     Scaffold.gateway_retries := 2 |}.

(** The same, but the directory takes four writes and then no more (a
    disk that has filled up). *)
Definition disk_fills_up : Scaffold.Environment :=
  {| Scaffold.complete := fun _ path _ => Some ("# " +:+ path);
     Scaffold.write_ok := fun n _ => Nat.ltb n 4;
     Scaffold.gateway_retries := 2 |}.

(** A target API and a gateway for the exploration engine: every probe
    answers with one endpoint and nothing new; the gateway never
    answers. *)
Definition collaborators : Exploration.Collaborators :=
  {| Exploration.Response := unit;
     Exploration.discovered_root := "/";
     Exploration.probe := fun _ _ => Some tt;
     Exploration.classify := fun _ => [(Exploration.endpoint, "GET /")];
     Exploration.extract_paths := fun _ => [];
     Exploration.normalize := fun p => p;
     Exploration.gateway_select := fun _ _ _ => None;
     Exploration.gateway_converged := fun _ _ _ => None;
     Exploration.summarize := fun _ => "" |}.

Definition config : Exploration.Config :=
  {| Exploration.failure_threshold := 5;
     Exploration.gateway_retries := 2 |}.

End Samples.

(** ** Further vocabulary and sample inputs *)

Module More.
Import Py.

(** The loop condition of [search_articles] as a test: the article
    matches, and testing it raised nothing. *)
Definition is_match (I : Interp) (query_lower : string) (article : value)
  : bool :=
  match Client.article_matches I query_lower article with
  | Ok true => true
  | _ => false
  end.

(** How many matches [search_articles] collects before it stops: the
    limit, but one at least, since the limit is tested after appending. *)
Definition effective_limit (limit : Z) : nat := Z.to_nat (Z.max 1 limit).

(** The arguments a tool of [list_tools] declares as required. *)
Definition requires (name key : string) : Prop :=
  ∃ required, (name, required) ∈ Server.list_tools ∧ key ∈ required.

(** The line the driver prints for the observation numbered [i]. *)
Definition observation_line (i : Z) (o : Cli.Observation) : string :=
  "  " +:+ str_of_int i +:+ ". [" +:+ Cli.category o +:+ "] "
  +:+ Cli.observation o.

(** An exploration result as the driver shows it: the success flag, the
    number of iterations, the summary and, when there are observations,
    their number followed by one line for each, numbered from 1. *)
Definition result_lines (r : Cli.ExplorationResult) : list string :=
  ["✅ Success: " +:+ str_of_bool (Cli.success r);
   "🔄 Iterations: " +:+ str_of_int (Cli.iterations r);
   nl +:+ "📝 Summary:" +:+ nl +:+ Cli.summary r +:+ nl]
  ++ match Cli.observations r with
     | [] => []
     | _ :: _ =>
         ("📋 Observations ("
          +:+ str_of_int (Z.of_nat (length (Cli.observations r))) +:+ "):")
         :: imap (fun k o => observation_line (Z.of_nat k + 1) o)
              (Cli.observations r)
     end.

(** A peer that is down: every request fails in transport. *)
Definition down (msg : string) : Client.Network :=
  {| Client.os_getenv := fun _ => None;
     Client.request := fun _ _ _ _ => Client.TransportFails msg;
     Client.status_error := fun _ _ => "" |}.

(** A peer that serves the tag list and nothing else. *)
Definition tags_net (tags : value) : Client.Network :=
  {| Client.os_getenv := fun _ => None;
     Client.request := fun _ method url _ =>
       if String.eqb url "http://localhost:3002/api/tags"
       then Client.Responds 200 (Ok (VDict [("tags", tags)]))
       else Client.Responds 404 (Ok VNone);
     Client.status_error := fun _ _ => "Client error '404 Not Found'" |}.

(** A peer that answers every request with status 200 and one body. *)
Definition always (body : value) : Client.Network :=
  {| Client.os_getenv := fun _ => None;
     Client.request := fun _ _ _ _ => Client.Responds 200 (Ok body);
     Client.status_error := fun _ _ => "" |}.

(** A deployment that names its API host. *)
Definition hosted_net : Client.Network :=
  {| Client.os_getenv := fun name =>
       if String.eqb name "API_BASE_URL" then Some "https://api.example"
       else if String.eqb name "APP_ENV" then Some "production"
       else None;
     Client.request := fun _ method url _ =>
       if String.eqb url "https://api.example/api/tags"
       then Client.Responds 200 (Ok (VDict [("tags", VList [])]))
       else Client.Responds 500 (Ok VNone);
     Client.status_error := fun _ _ => "Server error" |}.

End More.

(** * Properties of the driver *)

Section Driver.
Import Cli.

Lemma effects_app (t t' : list Event) :
  effects (t ++ t') = (effects t ++ effects t')%list.
Proof. unfold effects. apply List.filter_app. Qed.

Lemma seq_quiet {B} (p : Proc unit) (k : Proc B) :
  quiet p →
  effects (fst (p ;; k)) = effects (fst k) ∧ snd (p ;; k) = snd k.
Proof.
  intros [Ht Ho]. destruct p as [t o]; simpl in *; subst o.
  unfold mbind, proc_bind, bind. destruct k as [t' o']; simpl.
  now rewrite effects_app, Ht.
Qed.

Lemma seq_emit {B} (e : Event) (k : Proc B) :
  is_print e = false →
  effects (fst (emit e ;; k)) = e :: effects (fst k)
  ∧ snd (emit e ;; k) = snd k.
Proof.
  intros He. unfold mbind, proc_bind, bind, emit.
  destruct k as [t' o']; simpl. now rewrite He.
Qed.

Lemma quiet_ret : quiet (mret tt).
Proof. now split. Qed.

Lemma quiet_print line : quiet (print line).
Proof. now split. Qed.

Lemma quiet_seq (p q : Proc unit) : quiet p → quiet q → quiet (p ;; q).
Proof.
  intros Hp [Hq1 Hq2]. destruct (seq_quiet p q Hp) as [H1 H2].
  split; congruence.
Qed.

Lemma quiet_when (c : bool) (p : Proc unit) : quiet p → quiet (when c p).
Proof. destruct c; [easy | intros _; apply quiet_ret]. Qed.

Lemma quiet_banner title : quiet (banner title).
Proof. unfold banner. repeat apply quiet_seq; apply quiet_print. Qed.

Lemma quiet_print_observations obs : ∀ i, quiet (print_observations i obs).
Proof.
  induction obs as [|o rest IH]; intros i; cbn [print_observations].
  - apply quiet_ret.
  - apply quiet_seq; [apply quiet_print | apply IH].
Qed.

Lemma quiet_print_files files : quiet (print_files files).
Proof.
  induction files as [|f rest IH]; cbn [print_files].
  - apply quiet_ret.
  - apply quiet_seq; [apply quiet_print | apply IH].
Qed.

Lemma quiet_print_exploration_result r : quiet (print_exploration_result r).
Proof.
  unfold print_exploration_result.
  repeat (apply quiet_seq; [apply quiet_print |]).
  apply quiet_when, quiet_seq;
    [apply quiet_print | apply quiet_print_observations].
Qed.

Create HintDb quiet.

#[local] Hint Resolve quiet_ret quiet_print quiet_seq quiet_when quiet_banner
  quiet_print_observations quiet_print_files quiet_print_exploration_result
  : quiet.

Lemma observe_quiet {B} (p : Proc unit) (k : Proc B) :
  quiet p → observe (p ;; k) = observe k.
Proof.
  intros Hp. destruct (seq_quiet p k Hp) as [H1 H2].
  unfold observe. now rewrite H1, H2.
Qed.

Lemma observe_emit {B} (e : Event) (k : Proc B) :
  is_print e = false →
  observe (emit e ;; k) = (e :: fst (observe k), snd (observe k)).
Proof.
  intros He. destruct (seq_emit e k He) as [H1 H2].
  unfold observe. now rewrite H1, H2.
Qed.

Lemma observe_bind_emit {A B} (e r : Event) (a : A) (k : A → Proc B) :
  is_print e = false → is_print r = false →
  observe ((emit e ;; emit r ;; ret a) ≫= k)
  = (e :: r :: fst (observe (k a)), snd (observe (k a))).
Proof.
  intros He Hr. unfold observe, mbind, proc_bind, bind, emit, ret.
  simpl. destruct (k a) as [t o]; simpl. now rewrite He, Hr.
Qed.

Lemma observe_bind_raise {A B} (e : Event) what (k : A → Proc B) :
  is_print e = false →
  observe ((emit e ;; raise what) ≫= k) = ([e], Uncaught what).
Proof.
  intros He. unfold observe, mbind, proc_bind, bind, emit, raise. simpl.
  now rewrite He.
Qed.

Lemma observe_exit {B} (p : Proc unit) (code : Z) (k : Proc B) :
  quiet p →
  observe ((p ;; (sys_exit code : Proc unit)) ;; k) = ([], SysExit code).
Proof.
  intros [Hp1 Hp2]. destruct p as [t o]; simpl in *; subst o.
  unfold observe, mbind, proc_bind, bind, sys_exit. simpl.
  rewrite app_nil_r. now rewrite Hp1.
Qed.

Lemma observe_ret_bind {A B} (a : A) (k : A → Proc B) :
  observe (ret a ≫= k) = observe (k a).
Proof.
  unfold observe, mbind, proc_bind, bind, ret. now destruct (k a).
Qed.

Lemma observe_raise_bind {A B} what (k : A → Proc B) :
  observe (raise what ≫= k) = ([], Uncaught what).
Proof. reflexivity. Qed.

Lemma observe_emit_ret_bind {A B} (e : Event) (a : A) (k : A → Proc B) :
  is_print e = false →
  observe ((emit e ;; ret a) ≫= k)
  = (e :: fst (observe (k a)), snd (observe (k a))).
Proof.
  intros He. unfold observe, mbind, proc_bind, bind, emit, ret.
  simpl. destruct (k a) as [t o]; simpl. now rewrite He.
Qed.

Ltac step :=
  first [ rewrite observe_quiet by auto 10 with quiet
        | rewrite observe_emit by reflexivity
        | rewrite observe_bind_emit by reflexivity
        | rewrite observe_emit_ret_bind by reflexivity
        | rewrite observe_bind_raise by reflexivity
        | rewrite observe_ret_bind
        | rewrite observe_raise_bind
        | rewrite observe_exit by auto 10 with quiet ];
  cbn [fst snd].

Lemma main_path (w : World) (args : Args) :
  Path w args (fst (observe (main w args))) (snd (observe (main w args))).
Proof.
  unfold main.
  destruct (key_missing (getenv w api_key_var)) eqn:Hkey; cbn [when].
  { step. now constructor. }
  repeat step. unfold call_explore.
  destruct (explore w _ _ _) as [r|] eqn:Hexplore; repeat step.
  2: { now apply path_explore_raises. }
  destruct (String.eqb_spec (command args) "explore") as [Hcmd|Hcmd].
  { eapply path_explore_only; eassumption. }
  unfold clone_phases. repeat step. unfold call_generate_spec.
  destruct (generate_spec w _ _) as [sr|] eqn:Hspec; repeat step.
  2: { eapply path_spec_raises; eassumption. }
  destruct (spec_success sr) eqn:Hsucc; cbn [negb when]; repeat step.
  2: { eapply path_spec_failed; eassumption. }
  destruct (specification sr) as [spec|] eqn:Hsome; repeat step.
  2: { eapply path_spec_absent; eassumption. }
  cbv zeta. unfold os_makedirs.
  destruct (makedirs w _) eqn:Hmk; repeat step.
  2: { eapply path_makedirs_raises; eassumption. }
  unfold call_generate_code.
  destruct (generate_code w _ _) as [cr|] eqn:Hcode; repeat step.
  2: { eapply path_code_raises; eassumption. }
  destruct (code_success cr) eqn:Hcs; cbn [negb when]; repeat step.
  - eapply path_complete; eassumption.
  - eapply path_code_failed; eassumption.
Qed.


Lemma elem_of_effects (e : Event) (t : list Event) :
  e ∈ effects t ↔ e ∈ t ∧ is_print e = false.
Proof.
  unfold effects. rewrite !list_elem_of_In, List.filter_In.
  now rewrite negb_true_iff.
Qed.

Lemma stage_trace_effects (t : list Event) :
  stage_trace (effects t) = stage_trace t.
Proof.
  unfold stage_trace, effects. induction t as [|e t IH]; [easy|].
  destruct e; cbn; first [exact IH | f_equal; exact IH].
Qed.

(** Dropping the prints keeps the order of what is left. *)
Lemma filter_split {A} (f : A → bool) (t l1 l2 : list A) (x : A) :
  List.filter f t = (l1 ++ x :: l2)%list →
  ∃ t1 t2, t = (t1 ++ x :: t2)%list
           ∧ List.filter f t1 = l1 ∧ List.filter f t2 = l2.
Proof.
  revert l1. induction t as [|a t IH]; intros l1 H; simpl in H.
  - now destruct l1.
  - destruct (f a) eqn:Hfa.
    + destruct l1 as [|b l1]; simpl in H; injection H as -> H.
      * exists [], t. simpl. now rewrite H.
      * destruct (IH _ H) as (t1 & t2 & -> & H1 & H2).
        exists (b :: t1), t2. simpl. now rewrite Hfa, H1, H2.
    + destruct (IH _ H) as (t1 & t2 & -> & H1 & H2).
      exists (a :: t1), t2. simpl. now rewrite Hfa, H1, H2.
Qed.

Lemma precedes_effects (e1 e2 : Event) (t : list Event) :
  precedes e1 e2 (effects t) → precedes e1 e2 t.
Proof.
  intros (l1 & l2 & l3 & H). unfold effects in H.
  apply filter_split in H as (t1 & t' & -> & _ & H).
  apply filter_split in H as (t2 & t3 & -> & _ & _).
  now exists t1, t2, t3.
Qed.

(** Case analysis on the path a run takes. *)
Ltac by_path w args :=
  let P := fresh "P" in
  let t := fresh "t" in
  let o := fresh "o" in
  pose proof (main_path w args) as P;
  unfold observe in P; cbn [fst snd] in P;
  remember (effects (fst (main w args))) as t;
  remember (snd (main w args)) as o;
  destruct P; subst.

(** Membership in an explicit list of events, one element at a time. *)
Ltac in_list H :=
  unfold phase3, phase2, phase1 in H; cbn [app] in H;
  repeat (apply elem_of_cons in H as [H|H]; [try discriminate H|]);
  try (apply elem_of_nil in H; contradiction).

Lemma not_in_stage_trace (s : StageEvent) (t : list Event) :
  (∀ e, e ∈ effects t → stage_event e ≠ Some s) → s ∉ stage_trace t.
Proof.
  intros H Hin. rewrite <- stage_trace_effects in Hin.
  unfold stage_trace in Hin. apply list_elem_of_omap in Hin as (e & He & Hs).
  now apply (H e).
Qed.

(** C2. When the [ANTHROPIC_API_KEY] variable is unset, [main] prints the
    error and exits with code 1: it calls no stage and constructs no
    gateway client, so no network call can have been attempted. *)
Theorem missing_key_exits_1_before_any_stage (w : World) (args : Args) :
  getenv w api_key_var = None →
  main w args
  = ([Print "❌ Error: ANTHROPIC_API_KEY environment variable not set"],
     SysExit 1)
  ∧ exit_code (snd (main w args)) = 1
  ∧ (∀ s, ¬ calls_stage s (fst (main w args)))
  ∧ (∀ e, e ∈ fst (main w args) → is_network_effect e = false).
Proof.
  intros Hkey.
  assert (main w args
          = ([Print "❌ Error: ANTHROPIC_API_KEY environment variable not set"],
             SysExit 1)) as Hmain.
  { unfold main. rewrite Hkey. reflexivity. }
  rewrite Hmain. cbn [fst snd exit_code]. repeat split.
  - intros s Hs. unfold calls_stage in Hs. cbn in Hs.
    now apply elem_of_nil in Hs.
  - intros e He. apply list_elem_of_singleton in He. now subst e.
Qed.

Lemma missing_key_exits_1_witness :
  getenv CliExamples.world_no_key api_key_var = None
  ∧ exit_code (snd (main CliExamples.world_no_key CliExamples.clone_args)) = 1.
Proof.
  split; [reflexivity|].
  apply (missing_key_exits_1_before_any_stage
           CliExamples.world_no_key CliExamples.clone_args).
  reflexivity.
Defined.

(** C3. In every run the stage calls and returns form an initial segment
    of: exploration called, exploration returned, synthesis called,
    synthesis returned, generation called, generation returned. So a stage
    is called only after the one before it has returned. When
    specification synthesis returns [success = false] the driver exits
    with code 1 and code generation is never called; when code generation
    returns [success = false] the driver exits with code 1. *)
Theorem stages_sequential_and_short_circuit (w : World) (args : Args) :
  stage_trace (fst (main w args)) `prefix_of` pipeline_order
  ∧ (∀ obs url sr,
        CallGenerateSpec obs url ∈ fst (main w args) →
        generate_spec w obs url = Some sr →
        spec_success sr = false →
        ¬ calls_stage CodeGeneration (fst (main w args))
        ∧ snd (main w args) = SysExit 1)
  ∧ (∀ dir spec cr,
        CallGenerateCode dir spec ∈ fst (main w args) →
        generate_code w dir spec = Some cr →
        code_success cr = false →
        snd (main w args) = SysExit 1).
Proof.
  split; [|split].
  - rewrite <- stage_trace_effects. unfold pipeline_order.
    by_path w args; cbn; eexists; reflexivity.
  - intros obs url sr Hin Hsr Hfail.
    assert (CallGenerateSpec obs url ∈ effects (fst (main w args))) as Hin'
      by now apply elem_of_effects.
    unfold calls_stage. rewrite <- stage_trace_effects.
    by_path w args; in_list Hin'; try injection Hin' as -> ->; try congruence.
    split; [|reflexivity]. cbn. intros Hc.
    repeat (apply elem_of_cons in Hc as [Hc|Hc]; [discriminate Hc|]).
    now apply elem_of_nil in Hc.
  - intros dir spec cr Hin Hcr Hfail.
    assert (CallGenerateCode dir spec ∈ effects (fst (main w args))) as Hin'
      by now apply elem_of_effects.
    by_path w args; in_list Hin'; try injection Hin' as -> ->; congruence.
Qed.

Lemma stages_short_circuit_witness :
  snd (main CliExamples.world_spec_fails CliExamples.clone_args) = SysExit 1
  ∧ ¬ calls_stage CodeGeneration
        (fst (main CliExamples.world_spec_fails CliExamples.clone_args)).
Proof.
  destruct (stages_sequential_and_short_circuit
              CliExamples.world_spec_fails CliExamples.clone_args)
    as (_ & Hspec & _).
  destruct (Hspec (observations CliExamples.good_exploration)
              "http://localhost:3001"
              {| spec_success := false; specification := None |})
    as [Hno Hexit].
  - apply list_elem_of_In. vm_compute.
    repeat (first [left; reflexivity | right]).
  - reflexivity.
  - reflexivity.
  - split; assumption.
Defined.

Lemma trace_bind_returns {A B} (m : Proc A) (k : A → Proc B) (a : A) :
  snd m = Returns a → fst (m ≫= k) = (fst m ++ fst (k a))%list.
Proof.
  destruct m as [t o]; simpl; intros ->.
  unfold mbind, proc_bind, bind. now destruct (k a).
Qed.

Lemma suffix_bind {A B} (m : Proc A) (k : A → Proc B) (a : A) s :
  snd m = Returns a → s `suffix_of` fst (k a) → s `suffix_of` fst (m ≫= k).
Proof.
  intros Hm [pre Hs]. rewrite (trace_bind_returns m k a Hm), Hs.
  exists (fst m ++ pre)%list. now rewrite <- app_assoc.
Qed.

Lemma quiet_returns (p : Proc unit) : quiet p → snd p = Returns tt.
Proof. now intros [_ H]. Qed.

Lemma print_observations_lines (obs : list Observation) :
  ∀ i, fst (print_observations i obs)
       = map Print (imap (fun k o => More.observation_line (i + Z.of_nat k) o)
                      obs).
Proof.
  induction obs as [|o rest IH]; intros i; [reflexivity|].
  cbn [print_observations].
  rewrite (trace_bind_returns _ _ tt) by reflexivity.
  rewrite IH. cbn [print emit fst app imap map]. f_equal.
  - unfold More.observation_line. now rewrite Z.add_0_r.
  - f_equal. apply imap_ext. intros k o' _. cbn. f_equal. lia.
Qed.

(** What printing an exploration result puts on the screen. *)
Lemma print_exploration_result_lines (r : ExplorationResult) :
  fst (print_exploration_result r) = map Print (More.result_lines r).
Proof.
  unfold print_exploration_result, More.result_lines.
  repeat (rewrite (trace_bind_returns _ _ tt) by reflexivity).
  cbn [print emit fst app map]. do 3 f_equal.
  destruct (observations r) as [|o rest] eqn:Hobs; [reflexivity|].
  cbn [is_nonempty when].
  rewrite (trace_bind_returns _ _ tt) by reflexivity.
  rewrite print_observations_lines. cbn [print emit fst app map].
  do 2 f_equal. apply imap_ext. intros k o' _. cbn. f_equal. lia.
Qed.

(** C6. With the [explore] command the driver never calls specification
    synthesis or code generation and creates no directory; and when the
    credential is present and exploration returns, exploration has been
    called, [main] returns, and the run ends by printing that result:
    the line with its success flag, the line with its number of
    iterations, its summary and, if it has observations, their number and
    one numbered line for each with its category and text; then an empty
    line. *)
Theorem explore_command_runs_only_exploration (w : World) (args : Args) :
  command args = "explore" →
  ¬ calls_stage SpecSynthesis (fst (main w args))
  ∧ ¬ calls_stage CodeGeneration (fst (main w args))
  ∧ ¬ creates_directory (fst (main w args))
  ∧ (∀ r,
        key_missing (getenv w api_key_var) = false →
        explore w (target_url args) (max_iterations args) (endpoints args)
        = Some r →
        calls_stage Exploration (fst (main w args))
        ∧ (map Print (More.result_lines r) ++ [Print ""])%list
            `suffix_of` fst (main w args)
        ∧ snd (main w args) = Returns tt).
Proof.
  intros Hcmd. unfold calls_stage, creates_directory.
  repeat split.
  - rewrite <- stage_trace_effects.
    by_path w args; try congruence; cbn; intros Hc; in_list Hc.
  - rewrite <- stage_trace_effects.
    by_path w args; try congruence; cbn; intros Hc; in_list Hc.
  - intros [path Hin].
    assert (Makedirs path ∈ effects (fst (main w args))) as Hin'
      by now apply elem_of_effects.
    by_path w args; try congruence; in_list Hin'.
  - rewrite <- stage_trace_effects.
    by_path w args; try congruence; cbn.
    apply elem_of_cons; now left.
  - unfold main. rewrite H. cbn [when].
    repeat (eapply suffix_bind;
            [first [reflexivity | apply quiet_returns; auto 10 with quiet]|]).
    unfold call_explore. rewrite H0.
    eapply (suffix_bind _ _ r); [reflexivity|].
    eapply suffix_bind; [apply quiet_returns; auto with quiet|].
    rewrite Hcmd. cbn [String.eqb Ascii.eqb Bool.eqb].
    erewrite trace_bind_returns
      by (apply quiet_returns; auto with quiet).
    rewrite print_exploration_result_lines. now exists [].
  - by_path w args; congruence.
Qed.

Lemma explore_command_witness :
  command CliExamples.explore_args = "explore"
  ∧ ¬ calls_stage SpecSynthesis
        (fst (main CliExamples.world_ok CliExamples.explore_args))
  ∧ (map Print
       ["✅ Success: True"; "🔄 Iterations: 2";
        nl +:+ "📝 Summary:" +:+ nl +:+ "two endpoints" +:+ nl;
        "📋 Observations (1):"; "  1. [endpoint] GET /api/articles"; ""])
      `suffix_of` fst (main CliExamples.world_ok CliExamples.explore_args)
  ∧ snd (main CliExamples.world_ok CliExamples.explore_args) = Returns tt.
Proof.
  destruct (explore_command_runs_only_exploration
              CliExamples.world_ok CliExamples.explore_args eq_refl)
    as (Hspec & _ & _ & Hres).
  destruct (Hres CliExamples.good_exploration eq_refl eq_refl)
    as (_ & Hprinted & Hret).
  repeat split; assumption.
Defined.

Lemma os_path_join_plain (a : string) :
  a ≠ "" → ends_with_slash a = false →
  os_path_join a "cloned-env" = a +:+ "/cloned-env".
Proof.
  intros Ha Hs. unfold os_path_join. cbn [String.prefix].
  destruct (String.eqb_spec a ""); [contradiction|].
  now rewrite Hs.
Qed.

(** C7. Whenever a run calls the code generator, the directory it passes
    is [os.path.join(args.output, "cloned-env")], which is
    [<output>/cloned-env] for an output path that is not empty and has no
    trailing slash; [os.makedirs] was called on that directory, and
    succeeded, before the call to the generator. *)
Theorem codegen_output_dir (w : World) (args : Args) dir spec :
  CallGenerateCode dir spec ∈ fst (main w args) →
  dir = os_path_join (output args) "cloned-env"
  ∧ (output args ≠ "" → ends_with_slash (output args) = false →
     dir = output args +:+ "/cloned-env")
  ∧ makedirs w dir = true
  ∧ precedes (Makedirs dir) (CallGenerateCode dir spec) (fst (main w args)).
Proof.
  intros Hin.
  assert (CallGenerateCode dir spec ∈ effects (fst (main w args))) as Hin'
    by now apply elem_of_effects.
  assert (dir = os_path_join (output args) "cloned-env"
          ∧ makedirs w dir = true
          ∧ precedes (Makedirs dir) (CallGenerateCode dir spec)
              (effects (fst (main w args)))) as (Hdir & Hmk & Hpre).
  { by_path w args; in_list Hin'; injection Hin' as -> ->;
      (split; [reflexivity|]); (split; [assumption|]);
      unfold phase3, phase2, phase1; cbn [app].
    - refine (ex_intro _ [_; _; _; _; _; _; _]
                (ex_intro _ [_] (ex_intro _ [] eq_refl))).
    - refine (ex_intro _ [_; _; _; _; _; _; _]
                (ex_intro _ [_] (ex_intro _ [_] eq_refl))).
    - refine (ex_intro _ [_; _; _; _; _; _; _]
                (ex_intro _ [_] (ex_intro _ [_] eq_refl))). }
  repeat split; try assumption.
  - intros Ha Hs. rewrite Hdir. now apply os_path_join_plain.
  - now apply precedes_effects.
Qed.

Lemma codegen_output_dir_witness :
  precedes (Makedirs "./output/cloned-env")
    (CallGenerateCode "./output/cloned-env" CliExamples.empty_spec)
    (fst (main CliExamples.world_ok CliExamples.clone_args)).
Proof.
  apply (codegen_output_dir CliExamples.world_ok CliExamples.clone_args).
  apply list_elem_of_In. vm_compute.
  repeat (first [left; reflexivity | right]).
Defined.

(** C1 (the code departs from it). Exploration returns
    [success = false], the other collaborators work; [main] nevertheless
    ends normally, with exit code 0, under both commands. *)
Theorem failed_exploration_exits_0 :
  explore CliExamples.world_exploration_fails "http://localhost:3001" 100 None
  = Some CliExamples.failed_exploration
  ∧ success CliExamples.failed_exploration = false
  ∧ exit_code (snd (main CliExamples.world_exploration_fails
                      CliExamples.explore_args)) = 0
  ∧ exit_code (snd (main CliExamples.world_exploration_fails
                      CliExamples.clone_args)) = 0.
Proof. repeat split; reflexivity. Qed.

(** The exit codes the driver does produce: 1 exactly on the paths where
    the credential is missing, where synthesis or generation reports
    failure, or where an exception escapes; exploration's [success] flag
    plays no part. *)
Lemma exit_code_cases (w : World) (args : Args) :
  exit_code (snd (main w args)) = 0 ∨ exit_code (snd (main w args)) = 1.
Proof. by_path w args; cbn; auto. Qed.

End Driver.

(** * Properties of the generated client *)

Section ClientFacts.
Import Py Client.
Variables (I : Interp) (net : Network) (self : RealWorldAPIClient).

Lemma prefix_is_prefix (needle hay : string) :
  String.prefix needle hay = true → ∃ post, hay = needle +:+ post.
Proof.
  revert hay. induction needle as [|c needle IH]; intros hay H.
  - now exists hay.
  - destruct hay as [|c' hay]; [discriminate|]. cbn in H. revert H.
    destruct (ascii_dec c c') as [->|]; [|discriminate].
    intros H. destruct (IH _ H) as [post ->]. now exists post.
Qed.

Lemma contains_is_substring (needle hay : string) :
  contains needle hay = true → is_substring needle hay.
Proof.
  induction hay as [|c hay IH]; cbn [contains]; intros H.
  - rewrite orb_false_r in H. apply prefix_is_prefix in H as [post ->].
    now exists "", post.
  - apply orb_true_iff in H as [H|H].
    + apply prefix_is_prefix in H as [post ->]. now exists "", post.
    + destruct (IH H) as (pre & post & ->).
      now exists (String c pre), post.
Qed.

Lemma is_success_spec (status_code : Z) :
  is_success status_code = true ↔ (200 ≤ status_code ≤ 299)%Z.
Proof. unfold is_success. rewrite andb_true_iff, !Z.leb_le. tauto. Qed.

(** The [try] body yields a value only from a 2xx response whose body
    parsed. *)
Lemma send_ok (timeout : Z) (method url : string) (kwargs : dict) body :
  (∃ status_code,
      request net timeout method url kwargs = Responds status_code (Ok body)
      ∧ (200 ≤ status_code ≤ 299)%Z)
  ↔ send net timeout method url kwargs = Ok body.
Proof.
  unfold send. split.
  - intros (sc & -> & Hsc). apply is_success_spec in Hsc. now rewrite Hsc.
  - destruct (request net timeout method url kwargs)
      as [sc json|msg|msg]; try discriminate.
    destruct (is_success sc) eqn:Hsc; [|discriminate].
    intros ->. exists sc. split; [reflexivity|]. now apply is_success_spec.
Qed.

(** C10. [_request] returns a value exactly when the peer answered with
    a 2xx status and the body parsed, and that value is the parsed body.
    In every other case it raises a plain [Exception]: with a message
    that starts "API request failed:" when the failure is an
    [httpx.HTTPError] (a transport error or a status outside 2xx), and
    with one that starts "Request error:" for any other failure. *)
Theorem request_returns_body_or_raises (method path : string) (kwargs : dict) :
  let outcome := _request net self method path kwargs in
  let sent := send net 30 method (api_url self +:+ path) kwargs in
  (∀ body,
      outcome = Ok body ↔
      ∃ status_code,
        request net 30 method (api_url self +:+ path) kwargs
        = Responds status_code (Ok body)
        ∧ (200 ≤ status_code ≤ 299)%Z)
  ∧ (∀ e,
        outcome = Raise e →
        exc_type e = Exception
        ∧ ∃ cause,
            sent = Raise cause
            ∧ ((is_http_error cause = true
                ∧ exc_msg e = "API request failed: " +:+ exc_msg cause
                ∧ String.prefix "API request failed:" (exc_msg e) = true)
               ∨ (is_http_error cause = false
                  ∧ exc_msg e = "Request error: " +:+ exc_msg cause
                  ∧ String.prefix "Request error:" (exc_msg e) = true)))
  ∧ ((∃ body, outcome = Ok body) ∨ (∃ e, outcome = Raise e)).
Proof.
  cbv zeta. split; [|split].
  - intros body. etransitivity; [|symmetry; apply send_ok]. unfold _request.
    destruct (send net 30 method _ kwargs) as [b|cause]; [easy|].
    destruct (is_http_error cause); split; discriminate.
  - intros e He. unfold _request in He.
    destruct (send net 30 method _ kwargs) as [b|cause]; [discriminate|].
    destruct (is_http_error cause) eqn:Hc; injection He as <-;
      (split; [reflexivity|]); exists cause; (split; [reflexivity|]);
      [left|right]; repeat split; (assumption || reflexivity).
  - unfold _request.
    destruct (send net 30 method _ kwargs) as [b|cause]; [left; eauto|].
    right. destruct (is_http_error cause); eauto.
Qed.

Lemma bind_ok {A B} (m : result A) (k : A → result B) (b : B) :
  m ≫= k = Ok b → ∃ a, m = Ok a ∧ k a = Ok b.
Proof. destruct m as [a|e]; [eauto | discriminate]. Qed.

Lemma field_has_mentions (query : string) (article : value) (field : string) :
  field ∈ search_fields →
  field_has I (lower I query) article field = Ok true →
  mentions I query article.
Proof.
  intros Hf H. unfold field_has in H.
  apply bind_ok in H as (v & Hget & H).
  apply bind_ok in H as (s & Hlow & H).
  destruct v; try discriminate. injection Hlow as <-. injection H as H.
  exists field, s0. repeat split; try assumption.
  now apply contains_is_substring.
Qed.

Lemma article_matches_mentions (query : string) (article : value) :
  article_matches I (lower I query) article = Ok true →
  mentions I query article.
Proof.
  unfold article_matches. intros H.
  apply bind_ok in H as ([|] & Ht & H).
  { eapply field_has_mentions; [|eassumption]. set_solver. }
  apply bind_ok in H as ([|] & Hd & H).
  { eapply field_has_mentions; [|eassumption]. set_solver. }
  eapply field_has_mentions; [|eassumption]. set_solver.
Qed.

(** What the loop adds to [matching_articles]: a subsequence of the
    articles it walks over, each of which mentions the query, and never
    more than the limit allows. *)
Lemma search_loop_spec (query : string) (limit : Z) (articles : list value) :
  ∀ matching found,
    search_loop I (lower I query) (VInt limit) articles matching = Ok found →
    ∃ added,
      found = (matching ++ added)%list
      ∧ added `sublist_of` articles
      ∧ (∀ a, a ∈ added → mentions I query a)
      ∧ ((Z.of_nat (length matching) < limit)%Z →
         (Z.of_nat (length found) ≤ limit)%Z).
Proof.
  induction articles as [|article rest IH]; intros matching found H.
  - injection H as <-. exists []. rewrite app_nil_r.
    repeat split; [constructor | set_solver | lia].
  - cbn [search_loop] in H. apply bind_ok in H as (hit & Hhit & H).
    destruct hit.
    + apply bind_ok in H as (full & Hfull & H).
      cbn [int_ge] in Hfull. injection Hfull as <-.
      destruct (Z.leb_spec limit
                  (Z.of_nat (length (matching ++ [article])))) as [Hle|Hlt].
      * injection H as <-. exists [article]. repeat split.
        -- apply sublist_skip, sublist_nil_l.
        -- intros a Ha. apply list_elem_of_singleton in Ha as ->.
           now apply article_matches_mentions.
        -- rewrite length_app in *. cbn [length] in *. lia.
      * destruct (IH _ _ H) as (added & -> & Hsub & Hall & Hlen).
        exists (article :: added). rewrite <- app_assoc. repeat split.
        -- now apply sublist_skip.
        -- intros a Ha. apply elem_of_cons in Ha as [->|Ha];
             [now apply article_matches_mentions | now apply Hall].
        -- intros _. specialize (Hlen Hlt).
           rewrite !length_app in *. cbn [length] in *. lia.
    + destruct (IH _ _ H) as (added & -> & Hsub & Hall & Hlen).
      exists added. repeat split; try assumption.
      now apply sublist_cons.
Qed.

Lemma get_articles_first_page :
  get_articles I net self VNone VNone VNone (VInt 50) (VInt 0)
  = _request net self "GET" "/articles" first_page_kwargs.
Proof. reflexivity. Qed.

Lemma field_has_total (q : string) (d : dict) (field : string) :
  (∃ text, dict_get d field (VStr "") = VStr text) →
  ∃ b, field_has I q (VDict d) field = Ok b.
Proof.
  intros [text Ht]. unfold field_has. cbn [get mbind result_bind].
  rewrite Ht. cbn. eauto.
Qed.

Lemma article_matches_total (q : string) (article : value) :
  well_formed_article article → ∃ b, article_matches I q article = Ok b.
Proof.
  intros (d & -> & Hd). unfold article_matches.
  destruct (field_has_total q d "title") as [[|] ->];
    [apply Hd; set_solver | cbn; eauto |].
  destruct (field_has_total q d "description") as [[|] ->];
    [apply Hd; set_solver | cbn; eauto |].
  destruct (field_has_total q d "body") as [b ->];
    [apply Hd; set_solver | cbn; eauto].
Qed.

Lemma search_loop_total (q : string) (limit : Z) (articles : list value) :
  Forall well_formed_article articles →
  ∀ matching, ∃ found,
    search_loop I q (VInt limit) articles matching = Ok found.
Proof.
  induction 1 as [|article rest Hwf _ IH]; intros matching; cbn [search_loop].
  - eauto.
  - destruct (article_matches_total q article Hwf) as [[|] ->];
      cbn [mbind result_bind int_ge]; [|apply IH].
    destruct (Z.leb _ _); [eauto | apply IH].
Qed.

(** C9. For a query string and a limit of at least 1: a result that
    [search_articles] returns is the dictionary of a list [articles] and
    of [articlesCount], the length of that list; the list has at most
    [limit] elements; it is a subsequence of the one page fetched with
    [limit=50], and each element mentions the query, compared in lower
    case, in its title, description or body. The method does return such
    a result whenever that page arrives and holds well-formed articles. *)
Theorem search_articles_result (query : string) (limit : Z) :
  (1 ≤ limit)%Z →
  (∀ res,
      search_articles I net self (VStr query) (VInt limit) = Ok res →
      ∃ response matching,
        _request net self "GET" "/articles" first_page_kwargs = Ok response
        ∧ res = VDict [("articles", VList matching);
                       ("articlesCount", VInt (Z.of_nat (length matching)))]
        ∧ (Z.of_nat (length matching) ≤ limit)%Z
        ∧ matching `sublist_of` page_items I response
        ∧ (∀ a, a ∈ matching →
                a ∈ page_items I response ∧ mentions I query a))
  ∧ (∀ d items,
        _request net self "GET" "/articles" first_page_kwargs = Ok (VDict d) →
        dict_lookup "articles" d = Some (VList items) →
        Forall well_formed_article items →
        ∃ res, search_articles I net self (VStr query) (VInt limit) = Ok res).
Proof.
  intros Hlimit. split.
  - intros res H. unfold search_articles in H.
    rewrite get_articles_first_page in H.
    apply bind_ok in H as (response & Hreq & H).
    apply bind_ok in H as (page & Hpage & H).
    exists response. destruct response; try discriminate.
    cbn [get] in Hpage. injection Hpage as <-.
    destruct (truthy I (dict_get entries "articles" VNone)) eqn:Htruthy;
      cbn [negb] in H.
    + cbn [lower_of mbind result_bind] in H.
      unfold page_items. unfold dict_get in *.
      cbn [getitem] in *.
      destruct (dict_lookup "articles" entries) as [page|];
        [|discriminate Htruthy].
      cbn [mbind result_bind] in H.
      apply bind_ok in H as (items & Hitems & H).
      apply bind_ok in H as (found & Hloop & H).
      injection H as <-. rewrite Hitems.
      apply search_loop_spec in Hloop as (added & -> & Hsub & Hall & Hlen).
      cbn [app] in *. exists added.
      repeat split; try assumption.
      * apply Hlen. cbn. lia.
      * eapply elem_of_sublist; eassumption.
      * now apply Hall.
    + injection H as <-. exists [].
      split; [exact Hreq|]. split; [reflexivity|]. split; [cbn; lia|].
      split; [apply sublist_nil_l|].
      intros a Ha. now apply elem_of_nil in Ha.
  - intros d items Hreq Hlookup Hwf. unfold search_articles.
    rewrite get_articles_first_page, Hreq.
    cbn [mbind result_bind get getitem]. unfold dict_get. rewrite Hlookup.
    destruct items as [|a items]; cbn [truthy negb]; [eauto|].
    cbn [lower_of mbind result_bind iterate].
    destruct (search_loop_total (lower I query) limit _ Hwf []) as [found ->].
    cbn. eauto.
Qed.

End ClientFacts.

(** * Properties of the generated MCP server *)

Section ServerFacts.
Import Py Server.
Variables (I : Interp) (net : Client.Network).

Lemma one_text_ok (t : string) : one_text (Ok (text_result t)).
Proof. intros r [= <-]. eauto. Qed.

Lemma one_text_bind {A} (m : result A) (k : A → result (list Content)) :
  (∀ a, one_text (k a)) → one_text (m ≫= k).
Proof. intros Hk r H. destruct m as [a|e]; [now apply (Hk a) | discriminate]. Qed.

Lemma one_text_if (b : bool) (m1 m2 : result (list Content)) :
  one_text m1 → one_text m2 → one_text (if b then m1 else m2).
Proof. now destruct b. Qed.

Ltac one_text :=
  cbv zeta;
  repeat first [ apply one_text_ok
               | apply one_text_if
               | apply one_text_bind; intros ? ].

Lemma dispatch_one_text (name : string) (arguments : dict) :
  one_text (dispatch I net name arguments).
Proof.
  unfold dispatch.
  repeat (apply one_text_if; [|]); [.. | apply one_text_ok].
  - unfold tool_get_articles. one_text.
  - unfold tool_get_article. one_text.
  - unfold tool_get_article_comments. one_text.
  - unfold tool_get_profile. one_text.
  - unfold tool_get_tags. one_text.
  - unfold tool_search_articles. one_text.
  - unfold tool_health_check. one_text.
Qed.

Lemma dispatch_unknown (name : string) (arguments : dict) :
  name ∉ tool_names →
  dispatch I net name arguments = Ok (text_result ("Unknown tool: " +:+ name)).
Proof.
  intros Hname. unfold dispatch.
  repeat match goal with
         | |- context [String.eqb name ?s] =>
             destruct (String.eqb_spec name s) as [->|_];
             [exfalso; apply Hname; unfold tool_names; cbn; set_solver|]
         end.
  reflexivity.
Qed.

(** C8. [call_tool] never raises: for every name and argument dictionary
    it returns a list of exactly one item of type "text". If a declared
    tool raised while executing, the text is "Error executing <name>: "
    followed by the exception's text; if the name is none of the seven
    declared tools, the text is "Unknown tool: <name>". *)
Theorem call_tool_never_raises (name : string) (arguments : dict) :
  ∃ t,
    call_tool I net name arguments = Ok [{| type := "text"; text := t |}]
    ∧ (∀ e, name ∈ tool_names →
            dispatch I net name arguments = Raise e →
            t = "Error executing " +:+ name +:+ ": " +:+ exc_msg e
            ∧ String.prefix "Error executing" t = true)
    ∧ (name ∉ tool_names →
       t = "Unknown tool: " +:+ name
       ∧ String.prefix "Unknown tool:" t = true).
Proof.
  unfold call_tool.
  destruct (dispatch I net name arguments) as [contents|e] eqn:Hd.
  - destruct (dispatch_one_text name arguments contents Hd) as [t ->].
    exists t. split; [reflexivity|]. split; [discriminate|].
    intros Hname. rewrite (dispatch_unknown _ _ Hname) in Hd.
    injection Hd as <-. now split.
  - eexists. split; [reflexivity|]. split.
    + intros e' _ [= <-]. now split.
    + intros Hname. rewrite (dispatch_unknown _ _ Hname) in Hd. discriminate.
Qed.

End ServerFacts.

(** * Properties of the exploration engine *)

Section ExplorationFacts.
Import Exploration.
Variables (C : Collaborators) (cfg : Config).

Lemma used_set_phase (p : Phase) (st : State) : used (set_phase p st) = used st.
Proof. reflexivity. Qed.

Lemma used_probe_step (path : string) (st : State) :
  used (probe_step C cfg path st) = S (used st).
Proof. unfold probe_step. now destruct (probe C (S (used st)) path). Qed.

(** Each turn of the loop uses one unit of budget and counts one
    iteration. *)
Lemma used_run (budget : nat) :
  ∀ st, (used (run C cfg budget st) ≤ used st + budget)%nat.
Proof.
  induction budget as [|remaining IH]; intros st; cbn [run].
  - rewrite used_set_phase. lia.
  - destruct (select_next C cfg st) as [path|].
    + destruct (sufficient_coverage C cfg _ remaining).
      * rewrite used_set_phase, used_probe_step, used_set_phase. lia.
      * etransitivity; [apply IH|].
        rewrite used_probe_step, used_set_phase. lia.
    + rewrite used_set_phase. lia.
Qed.


(** A budget below zero allows no iteration at all. *)
Lemma no_budget_no_iteration
    (starting_endpoints : option (list string)) (N : Z) :
  (N ≤ 0)%Z →
  iterations (explore C cfg starting_endpoints N) = 0%Z.
Proof.
  intros HN. unfold explore. replace (Z.to_nat N) with O by lia.
  reflexivity.
Qed.

Lemma select_deterministic_single (p : string) :
  select_deterministic [p] = Some p.
Proof.
  unfold select_deterministic, min_depth. cbn.
  rewrite Nat.min_id, Nat.eqb_refl. reflexivity.
Qed.

(** The scenario of the specification: one starting endpoint and a
    budget of one give exactly one iteration. *)
Lemma one_endpoint_one_iteration (p : string) :
  iterations (explore C cfg (Some [p]) 1) = 1%Z.
Proof.
  unfold explore, result_of. cbn [iterations].
  change (Z.to_nat 1) with 1%nat. cbn [run].
  assert (∃ q, select_next C cfg (initial C (Some [p])) = Some q) as [q ->].
  { unfold select_next. cbn [initial frontier].
    rewrite select_deterministic_single.
    destruct (retry _ _) as [q|]; [destruct (in_frontier q [p])|]; eauto. }
  destruct (sufficient_coverage C cfg _ 0);
    cbn [run]; rewrite ?used_set_phase, used_probe_step; reflexivity.
Qed.

End ExplorationFacts.

(** * Properties of the scaffold generator *)

Section ScaffoldFacts.
Import Scaffold.
Variable L : Layout.

(** One file leaves the result as it was, marked failed, or extended by
    that file's path; it never repairs an earlier failure. *)
Lemma emit_file_cases (E : Environment) path content done st :
  fst (emit_file E path content done st) = wrote path done
  ∨ fst (emit_file E path content done st) = failed done.
Proof.
  unfold emit_file.
  destruct (render E _ path content st) as [[text|] st1]; [|now right].
  destruct (write E path text st1) as [[|] st2]; [now left | now right].
Qed.

(** What a run lists is a subsequence of what was to be written, after
    what was listed before; a run that ends successful has listed it all. *)
Lemma emit_all_listed (E : Environment) todo :
  ∀ done st,
    ∃ listed,
      generated_files (fst (emit_all E todo done st))
      = (generated_files done ++ listed)%list
      ∧ listed `sublist_of` map fst todo
      ∧ (success (fst (emit_all E todo done st)) = true →
         success done = true ∧ listed = map fst todo).
Proof.
  induction todo as [|[path content] rest IH]; intros done st.
  - exists []. cbn. rewrite app_nil_r. now repeat split.
  - cbn [emit_all].
    destruct (emit_file E path content done st) as [done' st'] eqn:Hfile.
    destruct (IH done' st') as (listed & Hfiles & Hsub & Hall).
    destruct (emit_file_cases E path content done st) as [Hd|Hd];
      rewrite Hfile in Hd; cbn [fst] in Hd; subst done'.
    + exists (path :: listed). cbn [wrote generated_files] in Hfiles.
      rewrite Hfiles, <- app_assoc. split; [reflexivity|]. split.
      * cbn. now apply sublist_skip.
      * intros Hs. destruct (Hall Hs) as [Hdone ->]. now split.
    + exists listed. cbn [failed generated_files] in Hfiles.
      split; [exact Hfiles|]. split.
      * cbn. now apply sublist_cons.
      * intros Hs. now destruct (Hall Hs).
Qed.


End ScaffoldFacts.

(** * The statements above at sample inputs *)

Lemma search_articles_witness :
  (1 ≤ 1)%Z
  ∧ ∃ response matching,
      Client._request Samples.net Samples.client "GET" "/articles"
        Client.first_page_kwargs = Py.Ok response
      ∧ Client.search_result [Samples.article "Proofs in Rocq" "tactics"]
        = Py.VDict [("articles", Py.VList matching);
                    ("articlesCount",
                     Py.VInt (Z.of_nat (length matching)))]
      ∧ (Z.of_nat (length matching) ≤ 1)%Z
      ∧ matching `sublist_of` Client.page_items Samples.interp response
      ∧ (∀ a, a ∈ matching →
              a ∈ Client.page_items Samples.interp response
              ∧ Client.mentions Samples.interp "ROCQ" a).
Proof.
  split; [lia|].
  destruct (search_articles_result Samples.interp Samples.net Samples.client
              "ROCQ" 1 ltac:(lia)) as [Hres _].
  exact (Hres _ eq_refl).
Defined.

Lemma request_witness :
  ∃ e, Client._request Samples.net Samples.client "GET" "/tags" []
       = Py.Raise e
       ∧ String.prefix "API request failed:" (Py.exc_msg e) = true.
Proof.
  destruct (request_returns_body_or_raises Samples.net Samples.client
              "GET" "/tags" []) as (_ & Hraise & _).
  eexists. split; [reflexivity|].
  destruct (Hraise _ eq_refl) as (_ & cause & _ & [(_ & _ & Hp)|(Hc & _)]).
  - exact Hp.
  - reflexivity.
Defined.

Lemma call_tool_witness :
  ∃ t, Server.call_tool Samples.interp Samples.net "drop_articles" []
       = Py.Ok [{| Server.type := "text"; Server.text := t |}]
       ∧ String.prefix "Unknown tool:" t = true.
Proof.
  destruct (call_tool_never_raises Samples.interp Samples.net
              "drop_articles" []) as (t & Hcall & _ & Hunknown).
  exists t. split; [exact Hcall|].
  apply Hunknown. unfold Server.tool_names. cbn. intros H.
  repeat (apply elem_of_cons in H as [H|H]; [discriminate H|]).
  now apply elem_of_nil in H.
Defined.





(** * Further properties of the driver *)

Section DriverMore.
Import Cli.

Ltac on_path w args :=
  let P := fresh "P" in
  let t := fresh "t" in
  let o := fresh "o" in
  pose proof (main_path w args) as P;
  unfold observe in P; cbn [fst snd] in P;
  remember (effects (fst (main w args))) as t;
  remember (snd (main w args)) as o;
  destruct P; subst.

Ltac among H :=
  unfold phase3, phase2, phase1 in H; cbn [app] in H;
  repeat (apply elem_of_cons in H as [H|H]; [try discriminate H|]);
  try (apply elem_of_nil in H; contradiction).

(** X1. A key that is set but empty counts as missing: [main] prints the
    same error and exits with code 1, having done nothing else. *)
Theorem empty_key_exits_1 (w : World) (args : Args) :
  getenv w api_key_var = Some "" →
  main w args
  = ([Print "❌ Error: ANTHROPIC_API_KEY environment variable not set"],
     SysExit 1).
Proof. intros Hkey. unfold main. rewrite Hkey. reflexivity. Qed.

Lemma empty_key_exits_1_witness :
  exit_code
    (snd (main {| getenv := fun _ => Some "";
                  explore := explore CliExamples.world_ok;
                  generate_spec := generate_spec CliExamples.world_ok;
                  makedirs := makedirs CliExamples.world_ok;
                  generate_code := generate_code CliExamples.world_ok |}
            CliExamples.clone_args)) = 1.
Proof. now rewrite empty_key_exits_1. Defined.

(** X2. What each stage is handed. Exploration is called with the
    command line's URL, budget and endpoints. Synthesis is called with
    that URL and with the observations exploration returned. Generation is
    called only with the specification of a synthesis that reported
    success. *)
Theorem stage_inputs (w : World) (args : Args) :
  (∀ url budget starting,
      CallExplore url budget starting ∈ fst (main w args) →
      url = target_url args ∧ budget = max_iterations args
      ∧ starting = endpoints args)
  ∧ (∀ obs url,
        CallGenerateSpec obs url ∈ fst (main w args) →
        url = target_url args
        ∧ ∃ r, explore w (target_url args) (max_iterations args)
                 (endpoints args) = Some r
               ∧ obs = observations r)
  ∧ (∀ dir spec,
        CallGenerateCode dir spec ∈ fst (main w args) →
        ∃ r sr,
          explore w (target_url args) (max_iterations args) (endpoints args)
          = Some r
          ∧ generate_spec w (observations r) (target_url args) = Some sr
          ∧ spec_success sr = true
          ∧ specification sr = Some spec).
Proof.
  split; [|split].
  - intros url budget starting Hin.
    assert (CallExplore url budget starting ∈ effects (fst (main w args)))
      as Hin' by now apply elem_of_effects.
    on_path w args; among Hin'; injection Hin' as -> -> ->; now repeat split.
  - intros obs url Hin.
    assert (CallGenerateSpec obs url ∈ effects (fst (main w args)))
      as Hin' by now apply elem_of_effects.
    on_path w args; among Hin'; injection Hin' as -> ->; eauto.
  - intros dir spec Hin.
    assert (CallGenerateCode dir spec ∈ effects (fst (main w args)))
      as Hin' by now apply elem_of_effects.
    on_path w args; among Hin'; injection Hin' as -> ->; eauto 10.
Qed.

Lemma stage_inputs_witness :
  ∃ r sr,
    explore CliExamples.world_ok "http://localhost:3001" 100
      (Some ["/api/articles"]) = Some r
    ∧ generate_spec CliExamples.world_ok (observations r)
        "http://localhost:3001" = Some sr
    ∧ spec_success sr = true
    ∧ specification sr = Some CliExamples.empty_spec.
Proof.
  destruct (stage_inputs CliExamples.world_ok CliExamples.clone_args)
    as (_ & _ & Hcode).
  apply (Hcode "./output/cloned-env").
  apply list_elem_of_In. vm_compute.
  repeat (first [left; reflexivity | right]).
Defined.

(** X3. When [os.makedirs] cannot create the output directory, the code
    generator is never called, and a run that got as far as creating the
    directory ends with an uncaught exception, exit code 1. *)
Theorem makedirs_failure_stops_generation (w : World) (args : Args) :
  makedirs w (os_path_join (output args) "cloned-env") = false →
  ¬ calls_stage CodeGeneration (fst (main w args))
  ∧ (creates_directory (fst (main w args)) →
     exit_code (snd (main w args)) = 1
     ∧ ∃ what, snd (main w args) = Uncaught what).
Proof.
  intros Hmk. split.
  - unfold calls_stage. rewrite <- stage_trace_effects.
    on_path w args; try congruence; cbn; intros Hc; among Hc.
  - intros [path Hin].
    assert (Makedirs path ∈ effects (fst (main w args))) as Hin'
      by now apply elem_of_effects.
    on_path w args; among Hin'; try congruence.
    cbn. eauto.
Qed.

Lemma makedirs_failure_witness :
  ¬ calls_stage CodeGeneration
      (fst (main {| getenv := getenv CliExamples.world_ok;
                    explore := explore CliExamples.world_ok;
                    generate_spec := generate_spec CliExamples.world_ok;
                    makedirs := fun _ => false;
                    generate_code := generate_code CliExamples.world_ok |}
              CliExamples.clone_args)).
Proof.
  apply (makedirs_failure_stops_generation
           {| getenv := getenv CliExamples.world_ok;
              explore := explore CliExamples.world_ok;
              generate_spec := generate_spec CliExamples.world_ok;
              makedirs := fun _ => false;
              generate_code := generate_code CliExamples.world_ok |}
           CliExamples.clone_args).
  reflexivity.
Defined.

(** X4. [main] ends with exit code 0 in exactly two situations: the key
    is present, exploration returns and the command is [explore]; or the
    key is present, all three stages return, synthesis and generation
    report success with a specification, and the directory could be
    created. *)
Theorem exit_code_zero_iff (w : World) (args : Args) :
  exit_code (snd (main w args)) = 0 ↔
  key_missing (getenv w api_key_var) = false
  ∧ ∃ r,
      explore w (target_url args) (max_iterations args) (endpoints args)
      = Some r
      ∧ (command args = "explore"
         ∨ ∃ sr spec cr,
             generate_spec w (observations r) (target_url args) = Some sr
             ∧ spec_success sr = true
             ∧ specification sr = Some spec
             ∧ makedirs w (os_path_join (output args) "cloned-env") = true
             ∧ generate_code w (os_path_join (output args) "cloned-env") spec
               = Some cr
             ∧ code_success cr = true).
Proof.
  split.
  - on_path w args; cbn [exit_code]; intros Hc; try discriminate Hc;
      (split; [assumption|]); eexists; (split; [eassumption|]).
    + now left.
    + right. eauto 10.
  - intros (Hkey & r & Hr & Hrest).
    on_path w args; cbn [exit_code]; try reflexivity; try congruence;
      destruct Hrest as [Hcmd|(sr' & spec' & cr' & Hs & Hss & Hsp & Hm & Hg & Hc)];
      congruence.
Qed.

(** X5. A [clone] run in which every collaborator works and synthesis
    and generation report success calls each of the three stages exactly
    once, in order, and returns normally. *)
Theorem successful_clone_runs_pipeline (w : World) (args : Args) r sr spec cr :
  key_missing (getenv w api_key_var) = false →
  command args ≠ "explore" →
  explore w (target_url args) (max_iterations args) (endpoints args) = Some r →
  generate_spec w (observations r) (target_url args) = Some sr →
  spec_success sr = true →
  specification sr = Some spec →
  makedirs w (os_path_join (output args) "cloned-env") = true →
  generate_code w (os_path_join (output args) "cloned-env") spec = Some cr →
  code_success cr = true →
  stage_trace (fst (main w args)) = pipeline_order
  ∧ snd (main w args) = Returns tt.
Proof.
  intros Hkey Hcmd Hr Hsr Hss Hsp Hmk Hcr Hcs.
  rewrite <- stage_trace_effects.
  on_path w args; try congruence.
  split; reflexivity.
Qed.

Lemma successful_clone_witness :
  stage_trace (fst (main CliExamples.world_ok CliExamples.clone_args))
  = pipeline_order.
Proof.
  apply (successful_clone_runs_pipeline CliExamples.world_ok
           CliExamples.clone_args CliExamples.good_exploration
           {| spec_success := true;
              specification := Some CliExamples.empty_spec |}
           CliExamples.empty_spec
           {| code_success := true; generated_files := ["client.py"] |});
    first [reflexivity | discriminate].
Defined.

End DriverMore.

(** * Further properties of the generated client *)

Lemma str_append_assoc (a b c : string) : (a +:+ b) +:+ c = a +:+ b +:+ c.
Proof.
  induction a as [|x a IH]; [reflexivity|].
  change (String x ((a +:+ b) +:+ c) = String x (a +:+ b +:+ c)).
  now rewrite IH.
Qed.

Section ClientMore.
Import Py Client More.
Variables (I : Interp) (net : Network) (self : RealWorldAPIClient).

(** X6. [health_check] returns a value exactly when the peer answered
    [GET <base_url>/health] with a 2xx status and a body that parsed, and
    the value is that body; every failure, of whatever kind, is raised as
    a plain [Exception] whose text is "Health check failed: " followed by
    the cause's text. *)
Theorem health_check_returns_body_or_raises :
  (∀ body,
      health_check net self = Ok body ↔
      ∃ status_code,
        request net 10 "GET" (base_url self +:+ "/health") []
        = Responds status_code (Ok body)
        ∧ (200 ≤ status_code ≤ 299)%Z)
  ∧ (∀ e,
        health_check net self = Raise e →
        exc_type e = Exception
        ∧ ∃ cause,
            send net 10 "GET" (base_url self +:+ "/health") [] = Raise cause
            ∧ exc_msg e = "Health check failed: " +:+ exc_msg cause).
Proof.
  split.
  - intros body. etransitivity; [|symmetry; apply send_ok].
    unfold health_check.
    destruct (send net 10 "GET" _ []) as [b|cause]; [easy|].
    split; discriminate.
  - intros e He. unfold health_check in He.
    destruct (send net 10 "GET" _ []) as [b|cause]; [discriminate|].
    injection He as <-. split; [reflexivity|]. now exists cause.
Qed.

(** X7. When [API_BASE_URL] is set, every request of a freshly
    initialised client goes to that host under [/api], whatever [APP_ENV]
    says: [_request] returns a body exactly when the peer at
    [<API_BASE_URL>/api<path>] answers 2xx with a body that parses. *)
Theorem api_base_url_routes_requests (u method path : string) (kwargs : dict) :
  os_getenv net "API_BASE_URL" = Some u →
  base_url (init net) = u
  ∧ ∀ body,
      _request net (init net) method path kwargs = Ok body ↔
      ∃ status_code,
        request net 30 method (u +:+ "/api" +:+ path) kwargs
        = Responds status_code (Ok body)
        ∧ (200 ≤ status_code ≤ 299)%Z.
Proof.
  intros Hu.
  assert (base_url (init net) = u) as Hbase.
  { unfold init, getenv_or. cbn [base_url]. rewrite Hu.
    now destruct (String.eqb _ "local"). }
  assert (api_url (init net) = u +:+ "/api") as Hapi.
  { unfold init, getenv_or. cbn [api_url]. rewrite Hu.
    now destruct (String.eqb _ "local"). }
  split; [exact Hbase|]. intros body.
  etransitivity; [|symmetry; apply send_ok].
  unfold _request. rewrite Hapi.
  replace ((u +:+ "/api") +:+ path) with (u +:+ "/api" +:+ path)
    by (symmetry; apply str_append_assoc).
  destruct (send net 30 method _ kwargs) as [b|cause]; [easy|].
  destruct (is_http_error cause); split; discriminate.
Qed.

(** X8. The query parameters [get_articles] sends: [limit] and [offset]
    always, as given; each of [tag], [author] and [favorited] exactly when
    its value is truthy, so an empty string or [None] is left out; and
    nothing else. *)
Theorem get_articles_params (tag author favorited limit offset : value) :
  ∃ params,
    get_articles I net self tag author favorited limit offset
    = _request net self "GET" "/articles" [("params", VDict params)]
    ∧ dict_lookup "limit" params = Some limit
    ∧ dict_lookup "offset" params = Some offset
    ∧ dict_lookup "tag" params = (if truthy I tag then Some tag else None)
    ∧ dict_lookup "author" params
      = (if truthy I author then Some author else None)
    ∧ dict_lookup "favorited" params
      = (if truthy I favorited then Some favorited else None)
    ∧ ∀ key, dict_lookup key params ≠ None →
             key ∈ ["limit"; "offset"; "tag"; "author"; "favorited"].
Proof.
  eexists. split; [reflexivity|]. unfold optional.
  destruct (truthy I tag), (truthy I author), (truthy I favorited);
    cbn; repeat split; try reflexivity;
    intros key;
    repeat match goal with
           | |- context [String.eqb key ?s] =>
               destruct (String.eqb_spec key s) as [->|_];
               [intros _; set_solver|]
           end;
    intros Hkey; contradiction.
Qed.

Lemma is_match_total (q : string) (article : value) :
  well_formed_article article →
  article_matches I q article = Ok (is_match I q article).
Proof.
  intros Hwf. unfold is_match.
  destruct (article_matches_total I q article Hwf) as [[|] ->]; reflexivity.
Qed.

(** On well-formed articles the loop collects matches in page order until
    there are [effective_limit limit] of them. *)
Lemma search_loop_first_matches (q : string) (limit : Z) (items : list value) :
  Forall well_formed_article items →
  ∀ matching,
    (length matching < effective_limit limit)%nat →
    search_loop I q (VInt limit) items matching
    = Ok (matching
          ++ take (effective_limit limit - length matching)
               (List.filter (is_match I q) items))%list.
Proof.
  unfold effective_limit.
  induction 1 as [|article rest Hwf _ IH]; intros matching Hlen;
    cbn [search_loop List.filter].
  - now rewrite take_nil, app_nil_r.
  - rewrite (is_match_total q article Hwf). cbn [mbind result_bind].
    destruct (is_match I q article); [|now apply IH].
    cbn [int_ge mbind result_bind]. rewrite length_app. cbn [length].
    destruct (Z.leb_spec limit (Z.of_nat (length matching + 1))) as [Hfull|Hmore].
    + replace (Z.to_nat (Z.max 1 limit) - length matching)%nat with 1%nat
        by lia.
      reflexivity.
    + rewrite IH by (rewrite length_app; cbn [length]; lia).
      rewrite length_app. cbn [length]. rewrite <- app_assoc. cbn [app].
      replace (Z.to_nat (Z.max 1 limit) - length matching)%nat
        with (S (Z.to_nat (Z.max 1 limit) - (length matching + 1)))%nat
        by lia.
      reflexivity.
Qed.

(** X9. On a page of well-formed articles, [search_articles] returns
    exactly the first matches in page order: [limit] of them when there
    are that many, and one at least even for a limit below 1; with them
    goes their count. *)
Theorem search_articles_first_matches
    (query : string) (limit : Z) (d : dict) (items : list value) :
  _request net self "GET" "/articles" first_page_kwargs = Ok (VDict d) →
  dict_lookup "articles" d = Some (VList items) →
  Forall well_formed_article items →
  search_articles I net self (VStr query) (VInt limit)
  = Ok (search_result
          (take (effective_limit limit)
             (List.filter (is_match I (lower I query)) items))).
Proof.
  intros Hreq Hlookup Hwf. unfold search_articles.
  rewrite get_articles_first_page, Hreq.
  cbn [mbind result_bind get getitem]. unfold dict_get. rewrite Hlookup.
  destruct items as [|a items]; cbn [truthy negb].
  { cbn [List.filter]. now rewrite take_nil. }
  cbn [lower_of mbind result_bind iterate].
  rewrite (search_loop_first_matches _ limit _ Hwf [])
    by (unfold effective_limit; cbn [length]; lia).
  cbn [app length mbind result_bind]. now rewrite Nat.sub_0_r.
Qed.

Lemma search_loop_nonpositive (q : string) (limit : Z) (items : list value) :
  (limit ≤ 0)%Z →
  ∀ found, search_loop I q (VInt limit) items [] = Ok found →
           (length found ≤ 1)%nat.
Proof.
  intros Hlimit. induction items as [|article rest IH]; intros found H.
  - injection H as <-. cbn. lia.
  - cbn [search_loop] in H. apply bind_ok in H as ([|] & _ & H).
    + cbn [app length int_ge mbind result_bind] in H.
      destruct (Z.leb_spec limit (Z.of_nat 1)); [|lia].
      injection H as <-. reflexivity.
    + now apply IH.
Qed.

Lemma search_loop_first_hit (q : string) (limit : Z)
    (before : list value) (m : value) (after : list value) :
  (limit ≤ 0)%Z →
  Forall (fun a => article_matches I q a = Ok false) before →
  article_matches I q m = Ok true →
  search_loop I q (VInt limit) (before ++ m :: after) [] = Ok [m].
Proof.
  intros Hlimit Hbefore Hm.
  induction Hbefore as [|a before Ha _ IH]; cbn [app search_loop].
  - rewrite Hm. cbn [mbind result_bind app length int_ge].
    now destruct (Z.leb_spec limit (Z.of_nat 1)); [|lia].
  - rewrite Ha. cbn [mbind result_bind]. exact IH.
Qed.

(** X10. With a limit of 0 or less, [search_articles] does not return
    an empty list when something matches. Whatever it returns has at most
    one element; and when some article matches and those before it were
    tested without matching, it returns exactly that first match, with
    count 1, without looking at the articles after it. *)
Theorem search_articles_nonpositive_limit (query : string) (limit : Z) :
  (limit ≤ 0)%Z →
  (∀ res,
      search_articles I net self (VStr query) (VInt limit) = Ok res →
      ∃ matching,
        res = search_result matching ∧ (length matching ≤ 1)%nat)
  ∧ (∀ d before m after,
        _request net self "GET" "/articles" first_page_kwargs = Ok (VDict d) →
        dict_lookup "articles" d = Some (VList (before ++ m :: after)) →
        Forall (fun a => article_matches I (lower I query) a = Ok false)
          before →
        article_matches I (lower I query) m = Ok true →
        search_articles I net self (VStr query) (VInt limit)
        = Ok (VDict [("articles", VList [m]); ("articlesCount", VInt 1)])).
Proof.
  intros Hlimit. split.
  - intros res H. unfold search_articles in H.
    apply bind_ok in H as (response & _ & H).
    apply bind_ok in H as (page & _ & H).
    destruct (truthy I page); cbn [negb] in H.
    + apply bind_ok in H as (ql & Hql & H). injection Hql as <-.
      apply bind_ok in H as (page' & _ & H).
      apply bind_ok in H as (items & _ & H).
      apply bind_ok in H as (found & Hloop & H). injection H as <-.
      exists found. split; [reflexivity|].
      eapply search_loop_nonpositive; eassumption.
    + injection H as <-. exists []. split; [reflexivity | cbn; lia].
  - intros d before m after Hreq Hlookup Hbefore Hm.
    unfold search_articles. rewrite get_articles_first_page, Hreq.
    cbn [mbind result_bind get getitem]. unfold dict_get. rewrite Hlookup.
    assert (truthy I (VList (before ++ m :: after)) = true) as ->
      by now destruct before.
    cbn [negb lower_of mbind result_bind iterate].
    rewrite (search_loop_first_hit _ limit before m after Hlimit Hbefore Hm).
    reflexivity.
Qed.

(** X11. [search_articles] does not catch what [get_articles] raises: a
    failed request for the page is raised unchanged, whatever the query
    and the limit. *)
Theorem search_articles_propagates (query limit : value) (e : exc) :
  _request net self "GET" "/articles" first_page_kwargs = Raise e →
  search_articles I net self query limit = Raise e.
Proof.
  intros Hreq. unfold search_articles.
  now rewrite get_articles_first_page, Hreq.
Qed.

(** X12. When the fetched object has no [articles] entry, or a falsy one
    such as an empty list or [null], [search_articles] returns the empty
    result [{"articles": [], "articlesCount": 0}] without looking at the
    query or the limit. *)
Theorem search_articles_empty_page (query limit : value) (d : dict) :
  _request net self "GET" "/articles" first_page_kwargs = Ok (VDict d) →
  truthy I (dict_get d "articles" VNone) = false →
  search_articles I net self query limit
  = Ok (VDict [("articles", VList []); ("articlesCount", VInt 0)]).
Proof.
  intros Hreq Hfalsy. unfold search_articles.
  rewrite get_articles_first_page, Hreq.
  cbn [mbind result_bind get]. now rewrite Hfalsy.
Qed.

(** X13. Malformed pages make [search_articles] raise rather than skip:
    a response that is no object raises [AttributeError], and so does a
    first article whose title is present but is no string. *)
Theorem search_articles_malformed (query : string) (limit : value) :
  (∀ response,
      _request net self "GET" "/articles" first_page_kwargs = Ok response →
      (∀ d, response ≠ VDict d) →
      search_articles I net self (VStr query) limit
      = error I AttributeError response)
  ∧ (∀ d a rest title,
        _request net self "GET" "/articles" first_page_kwargs = Ok (VDict d) →
        dict_lookup "articles" d = Some (VList (VDict a :: rest)) →
        dict_lookup "title" a = Some title →
        (∀ s, title ≠ VStr s) →
        search_articles I net self (VStr query) limit
        = error I AttributeError title).
Proof.
  split.
  - intros response Hreq Hno. unfold search_articles.
    rewrite get_articles_first_page, Hreq. cbn [mbind result_bind].
    destruct response; try reflexivity. now destruct (Hno entries).
  - intros d a rest title Hreq Hlookup Htitle Hno. unfold search_articles.
    rewrite get_articles_first_page, Hreq.
    cbn [mbind result_bind get getitem]. unfold dict_get. rewrite Hlookup.
    cbn [truthy negb lower_of mbind result_bind iterate search_loop].
    unfold article_matches, field_has.
    cbn [get mbind result_bind]. unfold dict_get. rewrite Htitle.
    destruct title; try reflexivity. now destruct (Hno s).
Qed.

End ClientMore.

Lemma api_base_url_witness :
  Client.get_tags More.hosted_net (Client.init More.hosted_net)
  = Py.Ok (Py.VDict [("tags", Py.VList [])]).
Proof.
  apply (api_base_url_routes_requests More.hosted_net "https://api.example"
           "GET" "/tags" [] eq_refl).
  exists 200%Z. split; [reflexivity | lia].
Defined.

Lemma sample_page_well_formed :
  Forall Client.well_formed_article
    [Samples.article "Proofs in Rocq" "tactics";
     Samples.article "Cooking" "salt";
     Samples.article "Logic" "the ROCQ prover"].
Proof.
  repeat constructor; eexists; (split; [reflexivity|]); intros field Hf;
    unfold Client.search_fields in Hf;
    repeat (apply elem_of_cons in Hf as [->|Hf]; [eexists; reflexivity|]);
    now apply elem_of_nil in Hf.
Qed.

Lemma search_articles_first_matches_witness :
  Client.search_articles Samples.interp Samples.net Samples.client
    (Py.VStr "rocq") (Py.VInt 5)
  = Py.Ok (Client.search_result
             [Samples.article "Proofs in Rocq" "tactics";
              Samples.article "Logic" "the ROCQ prover"]).
Proof.
  rewrite (search_articles_first_matches Samples.interp Samples.net
             Samples.client "rocq" 5 _ _ eq_refl eq_refl
             sample_page_well_formed).
  reflexivity.
Defined.

Lemma search_articles_nonpositive_witness :
  (0 ≤ 0)%Z
  ∧ Client.search_articles Samples.interp (More.always Samples.late_page)
      (Client.init (More.always Samples.late_page))
      (Py.VStr "ROCQ") (Py.VInt 0)
    = Py.Ok (Py.VDict
               [("articles",
                 Py.VList [Samples.article "Logic" "the ROCQ prover"]);
                ("articlesCount", Py.VInt 1)]).
Proof.
  split; [lia|].
  destruct (search_articles_nonpositive_limit Samples.interp
              (More.always Samples.late_page)
              (Client.init (More.always Samples.late_page))
              "ROCQ" 0 ltac:(lia)) as [_ Hfirst].
  apply (Hfirst
           [("articles",
             Py.VList [Samples.article "Cooking" "salt";
                       Samples.article "Logic" "the ROCQ prover"]);
            ("articlesCount", Py.VInt 2)]
           [Samples.article "Cooking" "salt"]
           (Samples.article "Logic" "the ROCQ prover") []).
  - reflexivity.
  - reflexivity.
  - repeat constructor.
  - reflexivity.
Defined.

Lemma search_articles_propagates_witness :
  Client.search_articles Samples.interp (More.down "connection refused")
    (Client.init (More.down "connection refused")) (Py.VStr "rocq") (Py.VInt 5)
  = Py.Raise {| Py.exc_type := Py.Exception;
                Py.exc_msg := "API request failed: connection refused" |}.
Proof.
  apply (search_articles_propagates Samples.interp
           (More.down "connection refused")).
  reflexivity.
Defined.

Lemma search_articles_empty_page_witness :
  Client.search_articles Samples.interp (More.always (Py.VDict []))
    (Client.init (More.always (Py.VDict []))) (Py.VInt 7) Py.VNone
  = Py.Ok (Py.VDict [("articles", Py.VList []);
                     ("articlesCount", Py.VInt 0)]).
Proof.
  apply (search_articles_empty_page Samples.interp
           (More.always (Py.VDict [])) _ _ _ []); reflexivity.
Defined.

Lemma search_articles_malformed_witness :
  Client.search_articles Samples.interp (More.always (Py.VList []))
    (Client.init (More.always (Py.VList []))) (Py.VStr "rocq") (Py.VInt 5)
  = Py.error Samples.interp Py.AttributeError (Py.VList []).
Proof.
  destruct (search_articles_malformed Samples.interp
              (More.always (Py.VList []))
              (Client.init (More.always (Py.VList [])))
              "rocq" (Py.VInt 5)) as [Hresp _].
  apply Hresp; [reflexivity | discriminate].
Defined.

(** * Further properties of the generated MCP server *)

Section ServerMore.
Import Py Server More.
Variables (I : Interp) (net : Client.Network).

(** X14. A tool called without an argument its schema requires makes no
    request: the answer is "Error executing <name>: '<key>'", the text of
    the [KeyError], whatever the peer would have said. *)
Theorem missing_required_argument (name key : string) (arguments : dict) :
  requires name key →
  dict_lookup key arguments = None →
  call_tool I net name arguments
  = Ok (text_result ("Error executing " +:+ name +:+ ": '" +:+ key +:+ "'")).
Proof.
  intros (required & Htool & Hkey) Hmissing. unfold list_tools in Htool.
  repeat (apply elem_of_cons in Htool as [[= -> ->]|Htool]);
    try (now apply elem_of_nil in Htool);
    try (now apply elem_of_nil in Hkey);
    apply list_elem_of_singleton in Hkey as ->;
    unfold call_tool, dispatch; cbn [String.eqb Ascii.eqb Bool.eqb];
    unfold tool_get_article, tool_get_article_comments, tool_get_profile,
      tool_search_articles;
    cbn [getitem mbind result_bind]; rewrite Hmissing; reflexivity.
Qed.

End ServerMore.

Lemma missing_required_argument_witness :
  Server.call_tool Samples.interp Samples.net "get_article"
    [("id", Py.VStr "proofs-in-rocq")]
  = Py.Ok (Server.text_result "Error executing get_article: 'slug'").
Proof.
  apply (missing_required_argument Samples.interp Samples.net
           "get_article" "slug").
  - exists ["slug"]. split.
    + unfold Server.list_tools. apply elem_of_cons. right.
      apply elem_of_cons. now left.
    + now apply list_elem_of_singleton.
  - reflexivity.
Defined.

Section ServerTexts.
Import Py Server More.
Variables (I : Interp) (net : Client.Network).

Lemma render_article_extends (acc : string) (article : value) (r : string) :
  render_article I acc article = Ok r → ∃ s, r = acc +:+ s.
Proof.
  unfold render_article, tags_of, author_name. intros H.
  repeat (apply bind_ok in H as (? & ? & H)). injection H as <-.
  rewrite !str_append_assoc. eauto.
Qed.

Lemma render_hit_extends (acc : string) (article : value) (r : string) :
  render_hit I acc article = Ok r → ∃ s, r = acc +:+ s.
Proof.
  unfold render_hit, tags_of, author_name. intros H.
  repeat (apply bind_ok in H as (? & ? & H)). injection H as <-.
  rewrite !str_append_assoc. eauto.
Qed.

Lemma render_comment_extends (acc : string) (comment : value) (r : string) :
  render_comment I acc comment = Ok r → ∃ s, r = acc +:+ s.
Proof.
  unfold render_comment, author_name. intros H.
  repeat (apply bind_ok in H as (? & ? & H)). injection H as <-.
  rewrite !str_append_assoc. eauto.
Qed.

(** A loop that only appends keeps what was there when it started. *)
Lemma for_each_extends (body : string → value → result string)
    (items : list value) :
  (∀ acc x r, body acc x = Ok r → ∃ s, r = acc +:+ s) →
  ∀ acc r, for_each body items acc = Ok r → ∃ s, r = acc +:+ s.
Proof.
  intros Hbody. induction items as [|x items IH]; intros acc r H.
  - injection H as <-. exists "". clear. induction acc as [|c acc IH'];
      [reflexivity|].
    change (String c acc = String c (acc +:+ "")). now rewrite <- IH'.
  - cbn [for_each] in H. apply bind_ok in H as (acc' & Hx & H).
    apply Hbody in Hx as [s1 ->]. apply IH in H as [s2 ->].
    exists (s1 +:+ s2). apply str_append_assoc.
Qed.

Ltac crunch :=
  repeat match goal with
    | H : (_ ≫= _) = Ok _ |- _ => apply bind_ok in H as (? & ? & H)
    | H : (if ?b then _ else _) = Ok _ |- _ => destruct b
    | H : for_each (render_article I) _ _ = Ok _ |- _ =>
        apply for_each_extends in H as [? ->];
        [|apply render_article_extends]
    | H : for_each (render_hit I) _ _ = Ok _ |- _ =>
        apply for_each_extends in H as [? ->];
        [|apply render_hit_extends]
    | H : for_each (render_comment I) _ _ = Ok _ |- _ =>
        apply for_each_extends in H as [? ->];
        [|apply render_comment_extends]
    | H : Ok _ = Ok _ |- _ => injection H as H; subst
    end.

(** Whatever a declared tool answers does not read "Unknown tool:". *)
Lemma handlers_never_unknown (arguments : dict) (r : list Content) :
  (tool_get_articles I net arguments = Ok r
   ∨ tool_get_article I net arguments = Ok r
   ∨ tool_get_article_comments I net arguments = Ok r
   ∨ tool_get_profile I net arguments = Ok r
   ∨ tool_get_tags I net = Ok r
   ∨ tool_search_articles I net arguments = Ok r
   ∨ tool_health_check I net = Ok r) →
  ∃ t, r = text_result t ∧ String.prefix "Unknown tool:" t = false.
Proof.
  unfold tool_get_articles, tool_get_article, tool_get_article_comments,
    tool_get_profile, tool_get_tags, tool_search_articles, tool_health_check.
  intros [H|[H|[H|[H|[H|[H|H]]]]]]; cbv zeta in H; crunch;
    eexists; (split; [reflexivity|]); reflexivity.
Qed.

(** X15. [call_tool] answers "Unknown tool: ..." for exactly the names
    that [list_tools] does not declare: every declared name reaches its
    handler, and no handler's text, error text included, starts that way. *)
Theorem unknown_tool_iff_undeclared (name : string) (arguments : dict)
    (t : string) :
  call_tool I net name arguments = Ok (text_result t) →
  (String.prefix "Unknown tool:" t = true ↔ name ∉ tool_names).
Proof.
  intros Hcall. destruct (decide (name ∈ tool_names)) as [Hin|Hout].
  - split; [|contradiction]. intros Hprefix. exfalso.
    assert (String.prefix "Unknown tool:" t = false) as Hno;
      [|congruence].
    clear Hprefix. unfold call_tool in Hcall.
    destruct (dispatch I net name arguments) as [r|e] eqn:Hd.
    + injection Hcall as ->. unfold tool_names, list_tools in Hin.
      cbn [map fst] in Hin.
      destruct (handlers_never_unknown arguments (text_result t))
        as (t' & [= ->] & Hno); [|exact Hno].
      repeat (apply elem_of_cons in Hin as [->|Hin];
              [unfold dispatch in Hd; cbn [String.eqb Ascii.eqb Bool.eqb] in Hd;
               tauto|]).
      now apply elem_of_nil in Hin.
    + injection Hcall as <-. reflexivity.
  - split; [easy|]. intros _. unfold call_tool in Hcall.
    rewrite (dispatch_unknown I net _ _ Hout) in Hcall.
    injection Hcall as <-. reflexivity.
Qed.

End ServerTexts.

Lemma unknown_tool_witness :
  String.prefix "Unknown tool:" "No tags found" = true
  ↔ "get_tags" ∉ Server.tool_names.
Proof.
  apply (unknown_tool_iff_undeclared Samples.interp
           (More.tags_net (Py.VList [])) "get_tags" []).
  reflexivity.
Defined.

Section ServerAnswers.
Import Py Server More.
Variables (I : Interp) (net : Client.Network).

(** X16. When the peer's answer holds no tags (no [tags] entry, or an
    empty or otherwise falsy one), the [get_tags] tool answers "No tags
    found". *)
Theorem get_tags_none (arguments : dict) (d : dict) :
  Client.get_tags net (client net) = Ok (VDict d) →
  truthy I (dict_get d "tags" (VList [])) = false →
  call_tool I net "get_tags" arguments = Ok (text_result "No tags found").
Proof.
  intros Hreq Hfalsy. unfold call_tool, dispatch.
  cbn [String.eqb Ascii.eqb Bool.eqb]. unfold tool_get_tags.
  rewrite Hreq. cbn [mbind result_bind get]. now rewrite Hfalsy.
Qed.

Lemma all_strings_map (names : list string) :
  all_strings I (map VStr names) = Ok names.
Proof.
  induction names as [|n names IH]; [reflexivity|].
  cbn [map all_strings]. now rewrite IH.
Qed.

(** X17. When the peer answers with a non-empty list of tag names, the
    [get_tags] tool answers "Available tags (<n> total):", a line break,
    and the names joined by ", ", where [n] is the number of names. *)
Theorem get_tags_lists_all (arguments : dict) (d : dict)
    (first : string) (others : list string) :
  Client.get_tags net (client net) = Ok (VDict d) →
  dict_lookup "tags" d = Some (VList (map VStr (first :: others))) →
  call_tool I net "get_tags" arguments
  = Ok (text_result
          ("Available tags ("
           +:+ str_of_int (Z.of_nat (length (first :: others)))
           +:+ " total):" +:+ nl +:+ str_join ", " (first :: others))).
Proof.
  intros Hreq Htags. unfold call_tool, dispatch.
  cbn [String.eqb Ascii.eqb Bool.eqb]. unfold tool_get_tags.
  rewrite Hreq. cbn [mbind result_bind get]. unfold dict_get.
  rewrite Htags. cbn [map truthy negb len mbind result_bind].
  unfold join. cbn [iterate mbind result_bind].
  change (VStr first :: map VStr others) with (map VStr (first :: others)).
  rewrite all_strings_map. cbn [mbind result_bind].
  rewrite length_map. cbn [length].
  now rewrite !str_append_assoc.
Qed.

(** X18. When the peer's answer holds no comments, the
    [get_article_comments] tool answers "No comments found for article
    '<slug>'". *)
Theorem get_article_comments_none (arguments : dict) (slug : value) (d : dict) :
  dict_lookup "slug" arguments = Some slug →
  Client.get_article_comments I net (client net) slug = Ok (VDict d) →
  truthy I (dict_get d "comments" (VList [])) = false →
  call_tool I net "get_article_comments" arguments
  = Ok (text_result ("No comments found for article '" +:+ format I slug
                     +:+ "'")).
Proof.
  intros Hslug Hreq Hfalsy. unfold call_tool, dispatch.
  cbn [String.eqb Ascii.eqb Bool.eqb]. unfold tool_get_article_comments.
  cbn [getitem mbind result_bind]. rewrite Hslug.
  cbn [mbind result_bind]. rewrite Hreq.
  cbn [mbind result_bind get]. now rewrite Hfalsy.
Qed.

(** X19. When no article on a well-formed page matches the query, the
    [search_articles] tool answers "No articles found matching
    '<query>'", for any integer limit and for the default limit. *)
Theorem search_tool_no_match (arguments : dict) (query : string) (limit : Z)
    (d : dict) (items : list value) :
  dict_lookup "query" arguments = Some (VStr query) →
  dict_get arguments "limit" (VInt 10) = VInt limit →
  Client._request net (client net) "GET" "/articles" Client.first_page_kwargs
  = Ok (VDict d) →
  dict_lookup "articles" d = Some (VList items) →
  Forall Client.well_formed_article items →
  List.filter (is_match I (lower I query)) items = [] →
  call_tool I net "search_articles" arguments
  = Ok (text_result ("No articles found matching '" +:+ query +:+ "'")).
Proof.
  intros Hquery Hlimit Hreq Hlookup Hwf Hnone. unfold call_tool, dispatch.
  cbn [String.eqb Ascii.eqb Bool.eqb]. unfold tool_search_articles.
  cbn [getitem mbind result_bind]. rewrite Hquery, Hlimit.
  cbn [mbind result_bind]. unfold Client.search_articles.
  rewrite get_articles_first_page, Hreq.
  cbn [mbind result_bind get getitem]. unfold dict_get. rewrite Hlookup.
  destruct items as [|a items]; cbn [truthy negb].
  { reflexivity. }
  cbn [lower_of mbind result_bind iterate].
  rewrite (search_loop_first_matches I _ limit _ Hwf [])
    by (unfold effective_limit; cbn [length]; lia).
  rewrite Hnone, take_nil. reflexivity.
Qed.

(** X20. A failed health check is reported through both wrappers: the
    [health_check] tool answers "Error executing health_check: Health
    check failed: " followed by the text of the cause. *)
Theorem health_tool_reports_failure (arguments : dict) (cause : exc) :
  Client.send net 10 "GET" (Client.base_url (client net) +:+ "/health") []
  = Raise cause →
  call_tool I net "health_check" arguments
  = Ok (text_result ("Error executing health_check: Health check failed: "
                     +:+ exc_msg cause)).
Proof.
  intros Hsend. unfold call_tool, dispatch.
  cbn [String.eqb Ascii.eqb Bool.eqb].
  unfold tool_health_check, Client.health_check. now rewrite Hsend.
Qed.

End ServerAnswers.

Section ServerOutage.
Import Py Server More.
Variables (I : Interp) (net : Client.Network) (msg : string).
Hypothesis outage :
  ∀ timeout method url kwargs,
    Client.request net timeout method url kwargs = Client.TransportFails msg.

Lemma request_fails_in_outage (self : Client.RealWorldAPIClient)
    (method path : string) (kwargs : dict) :
  Client._request net self method path kwargs
  = Raise {| exc_type := Exception;
             exc_msg := "API request failed: " +:+ msg |}.
Proof. unfold Client._request, Client.send. now rewrite outage. Qed.

Lemma health_check_fails_in_outage (self : Client.RealWorldAPIClient) :
  Client.health_check net self
  = Raise {| exc_type := Exception;
             exc_msg := "Health check failed: " +:+ msg |}.
Proof. unfold Client.health_check, Client.send. now rewrite outage. Qed.

(** X21. While every request fails in transport, no declared tool
    answers with data or with an empty listing: each answers "Error
    executing <name>: " followed by "API request failed: <cause>", by
    "Health check failed: <cause>" for the health check, or by the quoted
    name of a required argument that is missing. *)
Theorem outage_is_reported (name : string) (arguments : dict) :
  name ∈ tool_names →
  ∃ detail,
    call_tool I net name arguments
    = Ok (text_result ("Error executing " +:+ name +:+ ": " +:+ detail))
    ∧ (detail = "API request failed: " +:+ msg
       ∨ (name = "health_check" ∧ detail = "Health check failed: " +:+ msg)
       ∨ ∃ key, requires name key
                ∧ dict_lookup key arguments = None
                ∧ detail = "'" +:+ key +:+ "'").
Proof.
  intros Hin. unfold tool_names, list_tools in Hin. cbn [map fst] in Hin.
  assert (∀ key, key ∈ ["slug"; "username"; "query"] →
                 ∀ name', (name', [key]) ∈ list_tools → requires name' key)
    as Hreq.
  { intros key _ name' Htool. exists [key]. split; [exact Htool|].
    now apply list_elem_of_singleton. }
  repeat (apply elem_of_cons in Hin as [->|Hin]);
    try (now apply elem_of_nil in Hin);
    unfold call_tool, dispatch; cbn [String.eqb Ascii.eqb Bool.eqb].
  - unfold tool_get_articles, Client.get_articles.
    rewrite request_fails_in_outage. eexists; split; [reflexivity|now left].
  - unfold tool_get_article. cbn [getitem].
    destruct (dict_lookup "slug" arguments) as [slug|] eqn:Hslug;
      cbn [mbind result_bind].
    + unfold Client.get_article. rewrite request_fails_in_outage.
      eexists; split; [reflexivity|now left].
    + eexists; split; [reflexivity|]. right; right. exists "slug".
      repeat split; [|assumption]. apply Hreq; [set_solver|].
      unfold list_tools. set_solver.
  - unfold tool_get_article_comments. cbn [getitem].
    destruct (dict_lookup "slug" arguments) as [slug|] eqn:Hslug;
      cbn [mbind result_bind].
    + unfold Client.get_article_comments. rewrite request_fails_in_outage.
      eexists; split; [reflexivity|now left].
    + eexists; split; [reflexivity|]. right; right. exists "slug".
      repeat split; [|assumption]. apply Hreq; [set_solver|].
      unfold list_tools. set_solver.
  - unfold tool_get_profile. cbn [getitem].
    destruct (dict_lookup "username" arguments) as [username|] eqn:Huser;
      cbn [mbind result_bind].
    + unfold Client.get_profile. rewrite request_fails_in_outage.
      eexists; split; [reflexivity|now left].
    + eexists; split; [reflexivity|]. right; right. exists "username".
      repeat split; [|assumption]. apply Hreq; [set_solver|].
      unfold list_tools. set_solver.
  - unfold tool_get_tags, Client.get_tags.
    rewrite request_fails_in_outage. eexists; split; [reflexivity|now left].
  - unfold tool_search_articles. cbn [getitem].
    destruct (dict_lookup "query" arguments) as [query|] eqn:Hquery;
      cbn [mbind result_bind].
    + unfold Client.search_articles, Client.get_articles.
      rewrite request_fails_in_outage.
      eexists; split; [reflexivity|now left].
    + eexists; split; [reflexivity|]. right; right. exists "query".
      repeat split; [|assumption]. apply Hreq; [set_solver|].
      unfold list_tools. set_solver.
  - unfold tool_health_check. rewrite health_check_fails_in_outage.
    eexists; split; [reflexivity|]. right; left. now split.
Qed.

End ServerOutage.

Lemma get_tags_none_witness :
  Server.call_tool Samples.interp (More.tags_net (Py.VList [])) "get_tags" []
  = Py.Ok (Server.text_result "No tags found").
Proof.
  apply (get_tags_none Samples.interp (More.tags_net (Py.VList [])) []
           [("tags", Py.VList [])]); reflexivity.
Defined.

Lemma get_tags_lists_all_witness :
  Server.call_tool Samples.interp
    (More.tags_net (Py.VList [Py.VStr "rocq"; Py.VStr "logic"])) "get_tags" []
  = Py.Ok (Server.text_result
             ("Available tags (2 total):" +:+ nl +:+ "rocq, logic")).
Proof.
  rewrite (get_tags_lists_all Samples.interp
             (More.tags_net (Py.VList [Py.VStr "rocq"; Py.VStr "logic"])) []
             [("tags", Py.VList [Py.VStr "rocq"; Py.VStr "logic"])]
             "rocq" ["logic"] eq_refl eq_refl).
  reflexivity.
Defined.

Lemma get_article_comments_none_witness :
  Server.call_tool Samples.interp (More.always (Py.VDict []))
    "get_article_comments" [("slug", Py.VStr "proofs-in-rocq")]
  = Py.Ok (Server.text_result
             "No comments found for article 'proofs-in-rocq'").
Proof.
  apply (get_article_comments_none Samples.interp (More.always (Py.VDict []))
           [("slug", Py.VStr "proofs-in-rocq")] (Py.VStr "proofs-in-rocq") []);
    reflexivity.
Defined.

Lemma search_tool_no_match_witness :
  Server.call_tool Samples.interp Samples.net "search_articles"
    [("query", Py.VStr "haskell")]
  = Py.Ok (Server.text_result "No articles found matching 'haskell'").
Proof.
  apply (search_tool_no_match Samples.interp Samples.net
           [("query", Py.VStr "haskell")] "haskell" 10 _ _
           eq_refl eq_refl eq_refl eq_refl sample_page_well_formed).
  reflexivity.
Defined.

Lemma health_tool_reports_failure_witness :
  Server.call_tool Samples.interp (More.down "connection refused")
    "health_check" []
  = Py.Ok (Server.text_result
             "Error executing health_check: Health check failed: connection refused").
Proof.
  apply (health_tool_reports_failure Samples.interp
           (More.down "connection refused") []
           {| Py.exc_type := Py.HTTPError;
              Py.exc_msg := "connection refused" |}).
  reflexivity.
Defined.

Lemma outage_is_reported_witness :
  ∃ detail,
    Server.call_tool Samples.interp (More.down "connection refused")
      "get_tags" []
    = Py.Ok (Server.text_result
               ("Error executing " +:+ "get_tags" +:+ ": " +:+ detail)).
Proof.
  destruct (outage_is_reported Samples.interp
              (More.down "connection refused") "connection refused"
              (fun _ _ _ _ => eq_refl) "get_tags" []) as (detail & Hcall & _).
  - unfold Server.tool_names. cbn. set_solver.
  - now exists detail.
Defined.

Section ServerShapes.
Import Py Server More.
Variables (I : Interp) (net : Client.Network).

(** X22. The [get_profile] tool, given a profile that has a username,
    never fails on the optional fields: the answer is the "**Profile:
    <username>**" line, a "Bio:" line and an "Image:" line each exactly
    when that field is present and truthy, and a "Following:" line that
    says "Yes" when [following] is truthy and "No" otherwise. *)
Theorem get_profile_text (arguments : dict) (username : value)
    (d profile : dict) (name : value) :
  dict_lookup "username" arguments = Some username →
  Client.get_profile I net (client net) username = Ok (VDict d) →
  dict_lookup "profile" d = Some (VDict profile) →
  dict_lookup "username" profile = Some name →
  let bio := dict_get profile "bio" VNone in
  let image := dict_get profile "image" VNone in
  let following := dict_get profile "following" VNone in
  let line1 := "**Profile: " +:+ format I name +:+ "**" +:+ nl in
  let line2 := if truthy I bio
               then line1 +:+ "Bio: " +:+ format I bio +:+ nl else line1 in
  let line3 := if truthy I image
               then line2 +:+ "Image: " +:+ format I image +:+ nl
               else line2 in
  call_tool I net "get_profile" arguments
  = Ok (text_result
          (line3 +:+ "Following: "
           +:+ (if truthy I following then "Yes" else "No") +:+ nl)).
Proof.
  intros Huser Hreq Hprofile Hname. cbv zeta.
  unfold call_tool, dispatch. cbn [String.eqb Ascii.eqb Bool.eqb].
  unfold tool_get_profile. cbn [getitem mbind result_bind].
  rewrite Huser. cbn [mbind result_bind]. rewrite Hreq.
  cbn [mbind result_bind get].
  replace (dict_get d "profile" (VDict [])) with (VDict profile)
    by (unfold dict_get; now rewrite Hprofile).
  cbn [getitem mbind result_bind get]. rewrite Hname.
  cbn [mbind result_bind]. unfold dict_get.
  destruct (dict_lookup "bio" profile) as [bio|];
    [destruct (truthy I bio)|cbn [truthy]];
    (destruct (dict_lookup "image" profile) as [image|];
     [destruct (truthy I image)|cbn [truthy]]);
    reflexivity.
Qed.

(** X23. When the peer's answer to [get_article] has no [article]
    entry, the tool treats the article as empty and reports the first
    field it misses: "Error executing get_article: 'title'". *)
Theorem get_article_without_entry (arguments : dict) (slug : value) (d : dict) :
  dict_lookup "slug" arguments = Some slug →
  Client.get_article I net (client net) slug = Ok (VDict d) →
  dict_lookup "article" d = None →
  call_tool I net "get_article" arguments
  = Ok (text_result "Error executing get_article: 'title'").
Proof.
  intros Hslug Hreq Hnone. unfold call_tool, dispatch.
  cbn [String.eqb Ascii.eqb Bool.eqb]. unfold tool_get_article.
  cbn [getitem mbind result_bind]. rewrite Hslug.
  cbn [mbind result_bind]. rewrite Hreq.
  cbn [mbind result_bind get]. unfold dict_get. rewrite Hnone.
  reflexivity.
Qed.

End ServerShapes.

Lemma get_profile_text_witness :
  Server.call_tool Samples.interp
    (More.always
       (Py.VDict [("profile",
                   Py.VDict [("username", Py.VStr "ada");
                             ("bio", Py.VStr "");
                             ("following", Py.VBool true)])]))
    "get_profile" [("username", Py.VStr "ada")]
  = Py.Ok (Server.text_result
             ("**Profile: ada**" +:+ nl +:+ "Following: Yes" +:+ nl)).
Proof.
  rewrite (get_profile_text Samples.interp
             (More.always
                (Py.VDict [("profile",
                            Py.VDict [("username", Py.VStr "ada");
                                      ("bio", Py.VStr "");
                                      ("following", Py.VBool true)])]))
             [("username", Py.VStr "ada")] (Py.VStr "ada")
             [("profile",
               Py.VDict [("username", Py.VStr "ada"); ("bio", Py.VStr "");
                         ("following", Py.VBool true)])]
             [("username", Py.VStr "ada"); ("bio", Py.VStr "");
              ("following", Py.VBool true)]
             (Py.VStr "ada") eq_refl eq_refl eq_refl eq_refl).
  reflexivity.
Defined.

Lemma get_article_without_entry_witness :
  Server.call_tool Samples.interp (More.always (Py.VDict []))
    "get_article" [("slug", Py.VStr "proofs-in-rocq")]
  = Py.Ok (Server.text_result "Error executing get_article: 'title'").
Proof.
  apply (get_article_without_entry Samples.interp (More.always (Py.VDict []))
           [("slug", Py.VStr "proofs-in-rocq")] (Py.VStr "proofs-in-rocq") []);
    reflexivity.
Defined.
